(** * X3F container parser (rawspeed, parsers/X3fParser.cpp): a shallow
    embedding of the header decoder, the directory walker, the property-list
    decoder and the UTF-16 to UTF-8 string conversion. *)

From Stdlib Require Import ZArith Lia.
From stdpp Require Import base list gmap strings.

Open Scope Z_scope.

(** ** Constants (the [#define]s of X3fParser.cpp and X3fDecoder.h) *)

Definition X3F_FOVb : Z := 0x62564f46.
Definition X3F_SECd : Z := 0x64434553.
Definition X3F_PROP : Z := 0x504f5250.
Definition X3F_SECp : Z := 0x70434553.
Definition X3F_IMAG : Z := 0x46414d49.
Definition X3F_IMA2 : Z := 0x32414d49.
Definition X3F_SECi : Z := 0x69434553.
Definition X3F_CAMF : Z := 0x464d4143.
Definition X3F_SECc : Z := 0x63434553.

Definition X3F_VERSION (maj min : Z) : Z := Z.shiftl maj 16 + min.
Definition X3F_VERSION_2_0 : Z := X3F_VERSION 2 0.
Definition X3F_VERSION_2_1 : Z := X3F_VERSION 2 1.
Definition X3F_VERSION_2_3 : Z := X3F_VERSION 2 3.
Definition X3F_VERSION_3_0 : Z := X3F_VERSION 3 0.
Definition X3F_VERSION_4_0 : Z := X3F_VERSION 4 0.

Definition SIZE_UNIQUE_IDENTIFIER : Z := 16.
Definition SIZE_WHITE_BALANCE : Z := 32.
Definition NUM_EXT_DATA_2_1 : Z := 32.
Definition NUM_EXT_DATA_3_0 : Z := 64.

(** [uint32_t] arithmetic wraps modulo 2^32. *)
Definition u32 (z : Z) : Z := z mod 2 ^ 32.

(** ** Errors

    Every [ThrowXPE] site of the source is one constructor, named after the
    spec's taxonomy; [OutOfBoundsRead] is the [IOException] of the byte
    reader, and [HeaderIOError] the [ThrowXPE] that the constructor of
    [X3fParser] raises when it catches an [IOException] from the header. *)
Inductive X3fError :=
| FileTooSmall
| BadSignature
| HeaderIOError
| UnknownDirectorySignature
| UnsupportedDirectoryVersion
| EmptyDirectory
| UnknownPropertySignature
| PropertyVersionTooOld
| UnsupportedPropertyEncoding
| UnreasonablePropertyCount
| OutOfBoundsRead.

(** ** The bounded byte reader

    Modelled from the spec: rawspeed's [ByteStream] (io/ByteStream.h, not in
    this repository's sources) is "a cursor over an immutable byte buffer
    offering bounds-checked absolute/relative seeks and fixed-width reads
    (unsigned 32-bit little-endian integers, IEEE-754 floats, raw bytes,
    bounded sub-ranges)"; "the core never reads past the authoritative
    buffer length". A position may equal the size (nothing left to read);
    a seek beyond it, or a read of bytes beyond it, fails with
    [OutOfBoundsRead]. Bytes are integers in [0, 255]. *)
Record ByteStream := mkBS { bs_buf : list Z; bs_pos : Z }.

Definition bs_size (bs : ByteStream) : Z := Z.of_nat (length (bs_buf bs)).

Inductive Res (A : Type) :=
| Ok : A -> ByteStream -> Res A
| Err : X3fError -> Res A.
Arguments Ok {A} _ _.
Arguments Err {A} _.

(** The reader threads one mutable cursor through every call: a state and
    error monad over [ByteStream]. *)
Definition M (A : Type) : Type := ByteStream -> Res A.

#[global] Instance M_ret : MRet M := fun A a bs => Ok a bs.
#[global] Instance M_bind : MBind M := fun A B (k : A -> M B) (m : M A) bs =>
  match m bs with
  | Ok a bs' => k a bs'
  | Err e => Err e
  end.

Definition throw {A} (e : X3fError) : M A := fun _ => Err e.

Definition getPosition : M Z := fun bs => Ok (bs_pos bs) bs.

Definition getSize : M Z := fun bs => Ok (bs_size bs) bs.

(** [setPosition] stores the new position, then checks it against the size. *)
Definition setPosition (p : Z) : M unit := fun bs =>
  if (0 <=? p) && (p <=? bs_size bs) then Ok tt (mkBS (bs_buf bs) p)
  else Err OutOfBoundsRead.

Definition getRemainSize : M Z := fun bs => Ok (bs_size bs - bs_pos bs) bs.

(** [Buffer::isValid(offset, count)]: the [count] bytes at [offset] lie
    inside the buffer. *)
Definition isValid (off cnt : Z) : M bool := fun bs =>
  Ok ((0 <=? off) && (off + cnt <=? bs_size bs)) bs.

(** [getData(count)]: the [count] bytes at the cursor, which advances past them. *)
Definition getData (cnt : Z) : M (list Z) := fun bs =>
  if (0 <=? cnt) && (bs_pos bs + cnt <=? bs_size bs) then
    Ok (take (Z.to_nat cnt) (drop (Z.to_nat (bs_pos bs)) (bs_buf bs)))
       (mkBS (bs_buf bs) (bs_pos bs + cnt))
  else Err OutOfBoundsRead.

(** Little-endian value of a list of bytes. *)
Fixpoint le_value (l : list Z) : Z :=
  match l with
  | [] => 0
  | b :: l' => b + 256 * le_value l'
  end.

Definition getByte : M Z := fun bs =>
  match getData 1 bs with
  | Ok l bs' => Ok (le_value l) bs'
  | Err e => Err e
  end.

Definition getU32 : M Z := fun bs =>
  match getData 4 bs with
  | Ok l bs' => Ok (le_value l) bs'
  | Err e => Err e
  end.

(** A float is kept as its 32-bit pattern: no claim looks at its value. *)
Definition getFloat : M Z := getU32.

(** [for (auto i = 0; i < n; ++i) a[i] = read();] *)
Fixpoint repeatM {A} (n : nat) (m : M A) : M (list A) :=
  match n with
  | O => mret []
  | S n' => x ← m; xs ← repeatM n' m; mret (x :: xs)
  end.

(** ** Sections and the header decoder *)

(** [X3fHeader]: fields the decoder does not reach for a version keep the
    default value ([0] or the empty list); the C++ object leaves them
    uninitialised. *)
Record X3fHeader := mkHeader {
  h_id : Z; h_version : Z;
  unique_identifier : list Z;
  mark_bits : Z; columns : Z; rows : Z; rotation : Z;
  white_balance : list Z; color_mode : list Z;
  extended_types : list Z; extended_data : list Z }.

(** [X3fHeader::X3fHeader]: [X3fSection(bs)] reads id and version, then
    the signature is checked and the unique identifier is read for every
    version; the remaining fields are gated on the version. The loop over
    [extended_types] runs while [i <= num_ext_data]. *)
Definition X3fHeader_read : M X3fHeader :=
  id ← getU32;
  version ← getU32;
  if negb (id =? X3F_FOVb) then throw BadSignature else
  uid ← repeatM (Z.to_nat SIZE_UNIQUE_IDENTIFIER) getByte;
  if version <? X3F_VERSION_4_0 then
    mb ← getU32; cols ← getU32; rws ← getU32; rot ← getU32;
    if version >=? X3F_VERSION_2_1 then
      let num_ext_data :=
        if version >=? X3F_VERSION_3_0 then NUM_EXT_DATA_3_0 else NUM_EXT_DATA_2_1 in
      wb ← repeatM (Z.to_nat SIZE_WHITE_BALANCE) getByte;
      cm ← (if version >=? X3F_VERSION_2_3
            then repeatM (Z.to_nat SIZE_WHITE_BALANCE) getByte else mret []);
      et ← repeatM (Z.to_nat num_ext_data + 1) getByte;
      ed ← repeatM (Z.to_nat num_ext_data) getFloat;
      mret (mkHeader id version uid mb cols rws rot wb cm et ed)
    else mret (mkHeader id version uid mb cols rws rot [] [] [] [])
  else mret (mkHeader id version uid 0 0 0 0 [] [] [] []).

(** [X3fParser::X3fParser]: the size check, then the header; an
    [IOException] of the header is rethrown as a parser error. The result
    is the parser's byte stream. *)
Definition X3fParser_ctor (input : list Z) : Res unit :=
  if Z.of_nat (length input) <? 104 + 128 then Err FileTooSmall else
  match X3fHeader_read (mkBS input 0) with
  | Ok _ bs => Ok tt bs
  | Err OutOfBoundsRead => Err HeaderIOError
  | Err e => Err e
  end.

Record X3fDirectorySection := mkDirSec { dir_id : Z; dir_version : Z; dirNum : Z }.

(** [X3fDirectorySection::X3fDirectorySection]. *)
Definition X3fDirectorySection_read : M X3fDirectorySection :=
  id ← getU32;
  version ← getU32;
  if negb (id =? X3F_SECd) && negb (id =? X3F_SECc)
  then throw UnknownDirectorySignature else
  if version <? X3F_VERSION_2_0 then throw UnsupportedDirectoryVersion else
  n ← getU32;
  if n <? 1 then throw EmptyDirectory else
  mret (mkDirSec id version n).

Record X3fDirectoryEntry := mkDirEntry {
  de_offset : Z; de_length : Z; de_type : Z; de_sectionID : Z }.

(** [X3fDirectoryEntry::X3fDirectoryEntry]: the 12-byte record, then the
    sub-section signature read at [offset], with the cursor restored. *)
Definition X3fDirectoryEntry_read : M X3fDirectoryEntry :=
  off ← getU32;
  len ← getU32;
  ty ← getU32;
  old_pos ← getPosition;
  setPosition off;;
  sid ← getU32;
  setPosition old_pos;;
  mret (mkDirEntry off len ty sid).

Record X3fImageData := mkImage {
  img_id : Z; img_version : Z; img_type : Z; img_format : Z;
  img_width : Z; img_height : Z; img_dataSize : Z }.

Definition X3fImageData_read : M X3fImageData :=
  id ← getU32; version ← getU32;
  ty ← getU32; fmt ← getU32; w ← getU32; h ← getU32; sz ← getU32;
  mret (mkImage id version ty fmt w h sz).

Record X3fCamf := mkCamf { camf_type : Z; val0 : Z; val1 : Z; val2 : Z; val3 : Z }.

Definition X3fCamf_read : M X3fCamf :=
  ty ← getU32; v0 ← getU32; v1 ← getU32; v2 ← getU32; v3 ← getU32;
  mret (mkCamf ty v0 v1 v2 v3).

Record X3fPropertyList := mkPropList {
  pl_id : Z; pl_version : Z; num : Z; format : Z; reserved : Z; pl_length : Z }.

Definition X3fPropertyList_read : M X3fPropertyList :=
  id ← getU32; version ← getU32;
  n ← getU32; fmt ← getU32; rsv ← getU32; len ← getU32;
  mret (mkPropList id version n fmt rsv len).

Record X3fPropertyEntry := mkPropEntry { key_off : Z; val_off : Z }.

Definition X3fPropertyEntry_read : M X3fPropertyEntry :=
  k ← getU32; v ← getU32; mret (mkPropEntry k v).

(** ** UTF-16 to UTF-8 ([ConvertUTF16toUTF8], Unicode, Inc.) *)

Definition UNI_REPLACEMENT_CHAR : Z := 0xFFFD.
Definition UNI_SUR_HIGH_START : Z := 0xD800.
Definition UNI_SUR_HIGH_END : Z := 0xDBFF.
Definition UNI_SUR_LOW_START : Z := 0xDC00.
Definition UNI_SUR_LOW_END : Z := 0xDFFF.
Definition halfShift : Z := 10.
Definition halfBase : Z := 0x10000.
Definition firstByteMark : list Z := [0x00; 0x00; 0xC0; 0xE0; 0xF0; 0xF8; 0xFC].
Definition byteMask : Z := 0xBF.
Definition byteMark : Z := 0x80.

Definition is_high (ch : Z) : bool :=
  (UNI_SUR_HIGH_START <=? ch) && (ch <=? UNI_SUR_HIGH_END).
Definition is_low (ch : Z) : bool :=
  (UNI_SUR_LOW_START <=? ch) && (ch <=? UNI_SUR_LOW_END).

(** [((ch - UNI_SUR_HIGH_START) << halfShift) + (ch2 - UNI_SUR_LOW_START) + halfBase] *)
Definition combine_surrogates (ch ch2 : Z) : Z :=
  Z.shiftl (ch - UNI_SUR_HIGH_START) halfShift + (ch2 - UNI_SUR_LOW_START) + halfBase.

Definition bytesToWrite (ch : Z) : Z :=
  if ch <? 0x80 then 1
  else if ch <? 0x800 then 2
  else if ch <? 0x10000 then 3
  else if ch <? 0x110000 then 4
  else 3.

(** The loop [for (i = bytesToWrite; i > 1; i--)] writes the continuation
    bytes from the last one backwards, shifting [ch] right by 6 each time;
    the result is the shifted [ch] and the continuation bytes in order. *)
Fixpoint enc_tail (n : nat) (ch : Z) : Z * list Z :=
  match n with
  | O => (ch, [])
  | S n' =>
      let b := Z.land (Z.lor ch byteMark) byteMask in
      let '(ch', tl) := enc_tail n' (Z.shiftr ch 6) in
      (ch', tl ++ [b])
  end.

(** The [bytesToWrite] bytes written for [ch]; the lead byte is
    [static_cast<UTF8>(ch | firstByteMark[bytesToWrite])]. *)
Definition encode_utf8 (ch n : Z) : list Z :=
  let '(ch', tl) := enc_tail (Z.to_nat n - 1) ch in
  Z.land (Z.lor ch' (nth (Z.to_nat n) firstByteMark 0)) 255 :: tl.

(** One code point: [room] is the space left before [targetEnd]; when the
    bytes do not fit, the conversion stops with failure. [k] converts the
    rest of the source with the room left. *)
Definition emit (ch room : Z) (k : Z -> bool * list Z) : bool * list Z :=
  let n := bytesToWrite ch in
  let ch' := if ch <? 0x110000 then ch else UNI_REPLACEMENT_CHAR in
  if room <? n then (false, [])
  else let '(ok, out) := k (room - n) in (ok, encode_utf8 ch' n ++ out).

(** [ConvertUTF16toUTF8 src room] returns the success flag and the bytes
    written to the target (the target holds [room] bytes). A high surrogate
    followed by a non-low unit is written as it is (the strict branch is
    [#if 0]); a high surrogate at the end of the source fails. *)
Fixpoint ConvertUTF16toUTF8 (src : list Z) (room : Z) : bool * list Z :=
  match src with
  | [] => (true, [])
  | ch :: rest =>
      if is_high ch then
        match rest with
        | [] => (false, [])
        | ch2 :: rest' =>
            if is_low ch2
            then emit (combine_surrogates ch ch2) room (ConvertUTF16toUTF8 rest')
            else emit ch room (ConvertUTF16toUTF8 rest)
        end
      else emit ch room (ConvertUTF16toUTF8 rest)
  end.

(** The UTF-16 units of a byte range, read in the host (little-endian) order
    by the [reinterpret_cast<const UTF16*>]. *)
Fixpoint utf16_units (l : list Z) : list Z :=
  match l with
  | b0 :: b1 :: l' => (b0 + 256 * b1) :: utf16_units l'
  | _ => []
  end.

(** The scan [for (; i < max_len && start == src_end; i++)]: the final [i]
    and the index of the first zero unit, if any. *)
Fixpoint scan_nul (us : list Z) (i : nat) : nat * option nat :=
  match us with
  | [] => (i, None)
  | u :: us' => if u =? 0 then (S i, Some i) else scan_nul us' (S i)
  end.

(** The [std::string] built from the C string [dest]: the bytes up to the first zero byte. *)
Fixpoint cstring (l : list Z) : list Z :=
  match l with
  | [] => []
  | b :: l' => if b =? 0 then [] else b :: cstring l'
  end.

Fixpoint bytes_to_string (l : list Z) : string :=
  match l with
  | [] => EmptyString
  | b :: l' => String (Ascii.ascii_of_N (Z.to_N b)) (bytes_to_string l')
  end.

(** The tail of [X3fPropertyCollection::getString], given the units from
    the cursor: the scan for a zero unit, then the conversion of a
    non-empty, zero terminated string into [dest] with
    [targetEnd = &dest[i * 4 - 1]]; anything else gives the empty string. *)
Definition decode_units (units : list Z) : string :=
  match scan_nul units 0 with
  | (i, Some k) =>
      if (k =? 0)%nat then EmptyString
      else let '(ok, out) := ConvertUTF16toUTF8 (take k units) (Z.of_nat i * 4 - 1) in
           if ok then bytes_to_string (cstring out) else EmptyString
  | (_, None) => EmptyString
  end.

(** [X3fPropertyCollection::getString]: the units from the cursor up to the
    end of the buffer ([max_len = getRemainSize() / 2]). *)
Definition getString : M string :=
  rem ← getRemainSize;
  let max_len := u32 rem / 2 in
  data ← getData (max_len * 2);
  mret (decode_units (utf16_units data)).

(** ** The property-list decoder *)

Abbreviation Props := (gmap string string).

(** The body of the loop over the property entries of [addProperties],
    after the entry record [pe] has been read. *)
Definition addProperty (data_start : Z) (pe : X3fPropertyEntry) (props : Props)
    : M Props :=
  old_pos ← getPosition;
  v1 ← isValid (u32 (key_off pe * 2 + data_start)) 2;
  v2 ← isValid (u32 (val_off pe * 2 + data_start)) 2;
  props' ← (if v1 && v2 then
              setPosition (u32 (key_off pe * 2 + data_start));;
              key ← getString;
              setPosition (u32 (val_off pe * 2 + data_start));;
              val ← getString;
              mret (<[key := val]> props)
            else mret props);
  setPosition old_pos;;
  mret props'.

Fixpoint addProperty_loop (n : nat) (data_start : Z) (props : Props) : M Props :=
  match n with
  | O => mret props
  | S n' =>
      pe ← X3fPropertyEntry_read;
      props' ← addProperty data_start pe props;
      addProperty_loop n' data_start props'
  end.

(** [X3fPropertyCollection::addProperties]. *)
Definition addProperties (offset : Z) (props : Props) : M Props :=
  setPosition offset;;
  pl ← X3fPropertyList_read;
  if negb (pl_id pl =? X3F_SECp) then throw UnknownPropertySignature else
  if pl_version pl <? X3F_VERSION_2_0 then throw PropertyVersionTooOld else
  if num pl <? 1 then mret props else
  if negb (format pl =? 0) then throw UnsupportedPropertyEncoding else
  if 1000 <? num pl then throw UnreasonablePropertyCount else
  p ← getPosition;
  let data_start := u32 (p + num pl * 8) in
  addProperty_loop (Z.to_nat (num pl)) data_start props.

(** ** The directory walker *)

Record X3fDecoder := mkDecoder {
  images : list X3fImageData; properties : Props; camf : option X3fCamf }.

Definition emptyDecoder : X3fDecoder := mkDecoder [] ∅ None.

(** The [switch (dir.type)] of [parseData]. *)
Definition dispatchEntry (dir : X3fDirectoryEntry) (dec : X3fDecoder) : M X3fDecoder :=
  let ty := de_type dir in
  if (ty =? X3F_IMAG) || (ty =? X3F_IMA2) then
    img ← X3fImageData_read;
    mret (mkDecoder (images dec ++ [img]) (properties dec) (camf dec))
  else if ty =? X3F_PROP then
    props ← addProperties (de_offset dir) (properties dec);
    mret (mkDecoder (images dec) props (camf dec))
  else if ty =? X3F_CAMF then
    c ← X3fCamf_read;
    mret (mkDecoder (images dec) (properties dec) (Some c))
  else mret dec.

(** One iteration of the directory loop of [parseData]. *)
Definition parseEntry (dec : X3fDecoder) : M X3fDecoder :=
  dir ← X3fDirectoryEntry_read;
  old_pos ← getPosition;
  setPosition (de_offset dir);;
  dec' ← dispatchEntry dir dec;
  setPosition old_pos;;
  mret dec'.

Fixpoint parseEntries (n : nat) (dec : X3fDecoder) : M X3fDecoder :=
  match n with
  | O => mret dec
  | S n' => dec' ← parseEntry dec; parseEntries n' dec'
  end.

(** [X3fParser::parseData]. *)
Definition parseData (dec : X3fDecoder) : M X3fDecoder :=
  sz ← getSize;
  setPosition (u32 (sz - 4));;
  dir_loc ← getU32;
  setPosition dir_loc;;
  dirSec ← X3fDirectorySection_read;
  parseEntries (Z.to_nat (dirNum dirSec)) dec.

(** The whole parse: [X3fParser(input)], then [getDecoder], which runs
    [parseData] on a fresh decoder (a parser error caught there is rethrown
    unchanged in kind). *)
Definition parse (input : list Z) : Res X3fDecoder :=
  match X3fParser_ctor input with
  | Ok _ bs => parseData emptyDecoder bs
  | Err e => Err e
  end.

(** ** The decoder's signature test and the section identifier reader *)

(** [Buffer::getData(offset, count)] of the input buffer (io/Buffer.h, not
    in this repository's sources): the [count] bytes at [offset], or an
    [IOException] when they do not lie inside the buffer. *)
Definition Buffer_getData (input : list Z) (off cnt : Z) : X3fError + list Z :=
  if (0 <=? off) && (0 <=? cnt) && (off + cnt <=? Z.of_nat (length input))
  then inr (take (Z.to_nat cnt) (drop (Z.to_nat off) input))
  else inl OutOfBoundsRead.

(** [{'F', 'O', 'V', 'b'}] *)
Definition magic : list Z := [70; 79; 86; 98].

(** [X3fDecoder::isX3f]: [memcmp] of the first four bytes with [magic]. *)
Definition isX3f (input : list Z) : X3fError + bool :=
  match Buffer_getData input 0 (Z.of_nat (length magic)) with
  | inl e => inl e
  | inr data => inr (bool_decide (data = magic))
  end.

Definition isAppropriateDecoder (file : list Z) : X3fError + bool := isX3f file.

(** [getIdAsString]: four bytes, a zero terminator, and the [std::string]
    built from the C string. *)
Definition getIdAsString : M string :=
  id ← repeatM 4 getByte;
  mret (bytes_to_string (cstring (id ++ [0]))).

(** ** Test files

    Builders for concrete X3F files: a header, sections laid out one after
    the other, the directory after them and the directory pointer last. *)

Definition le32 (z : Z) : list Z :=
  [z mod 256; (z / 256) mod 256; (z / 65536) mod 256; (z / 16777216) mod 256].

Definition zeros (n : nat) : list Z := repeat 0 n.

Definition len (l : list Z) : Z := Z.of_nat (length l).

(** A header of the given version: signature, version, then zero bytes up
    to [n] bytes in total. *)
Definition header_bytes (version : Z) (n : nat) : list Z :=
  le32 X3F_FOVb ++ le32 version ++ zeros (n - 8).

Fixpoint layout (off : Z) (secs : list (Z * list Z)) : list Z * list Z :=
  match secs with
  | [] => ([], [])
  | (ty, b) :: secs' =>
      let '(d, e) := layout (off + len b) secs' in
      (b ++ d, le32 off ++ le32 (len b) ++ le32 ty ++ e)
  end.

Definition build_file (hdr : list Z) (secs : list (Z * list Z)) : list Z :=
  let '(d, e) := layout (len hdr) secs in
  hdr ++ d ++ le32 X3F_SECd ++ le32 X3F_VERSION_2_0
      ++ le32 (Z.of_nat (length secs)) ++ e ++ le32 (len hdr + len d).

Definition units_bytes (us : list Z) : list Z :=
  flat_map (fun u => [u mod 256; u / 256]) us.

Definition ascii_units (s : string) : list Z :=
  map (fun c => Z.of_N (Ascii.N_of_ascii c)) (String.list_ascii_of_string s).

(** A property list section with format [fmt], the given (name offset,
    value offset) records and the character data [chars] (UTF-16 units). *)
Definition prop_section (fmt : Z) (n : Z) (entries : list (Z * Z)) (chars : list Z)
    : list Z :=
  le32 X3F_SECp ++ le32 X3F_VERSION_2_0 ++ le32 n ++ le32 fmt ++ le32 0
  ++ le32 (len chars)
  ++ flat_map (fun '(k, v) => le32 k ++ le32 v) entries
  ++ units_bytes chars.

Definition image_section : list Z :=
  le32 X3F_SECi ++ le32 X3F_VERSION_2_0 ++ le32 2 ++ le32 3 ++ le32 640
  ++ le32 480 ++ le32 0.

(** ** Specification-side helpers

    Names for what the reader sees at a position of a buffer, and for the
    per-entry effect of the property decoder. *)

(** The 32-bit little-endian value and the byte at a position of a buffer. *)
Definition u32_at (buf : list Z) (p : Z) : Z := le_value (take 4 (drop (Z.to_nat p) buf)).

Definition keeps_buf {A} (m : M A) : Prop :=
  forall bs a bs', m bs = Ok a bs' -> bs_buf bs' = bs_buf bs.

Definition known_tag (ty : Z) : bool :=
  (ty =? X3F_IMAG) || (ty =? X3F_IMA2) || (ty =? X3F_PROP) || (ty =? X3F_CAMF).

(** The string [getString] decodes at [q]. *)
Definition string_at (buf : list Z) (q : Z) : string :=
  match getString (mkBS buf q) with Ok s _ => s | Err _ => EmptyString end.

(** [pe.key_off * 2 + data_start] in [uint32_t]. *)
Definition prop_addr (data_start off : Z) : Z := u32 (off * 2 + data_start).

Definition prop_entry_valid (buf : list Z) (data_start : Z) (pe : X3fPropertyEntry) : bool :=
  let a := prop_addr data_start (key_off pe) in
  let b := prop_addr data_start (val_off pe) in
  ((0 <=? a) && (a + 2 <=? Z.of_nat (length buf)))
  && ((0 <=? b) && (b + 2 <=? Z.of_nat (length buf))).

Definition prop_insert (buf : list Z) (data_start : Z) (props : Props)
    (pe : X3fPropertyEntry) : Props :=
  if prop_entry_valid buf data_start pe
  then <[string_at buf (prop_addr data_start (key_off pe))
         := string_at buf (prop_addr data_start (val_off pe))]> props
  else props.

(** The entry records [pes] are stored one after the other from [p]. *)
Fixpoint entries_at (buf : list Z) (p : Z) (pes : list X3fPropertyEntry) : Prop :=
  match pes with
  | [] => True
  | pe :: pes' =>
      X3fPropertyEntry_read (mkBS buf p) = Ok pe (mkBS buf (p + 8))
      /\ entries_at buf (p + 8) pes'
  end.

(** The UTF-16 units stored from [q] to the end of the buffer. *)
Definition units_at (buf : list Z) (q : Z) : list Z := utf16_units (drop (Z.to_nat q) buf).

(** The standard UTF-8 encoding of a code point, written arithmetically. *)
Definition utf8_bytes (c : Z) : list Z :=
  if c <? 0x80 then [c]
  else if c <? 0x800 then [0xC0 + c / 64; 0x80 + c mod 64]
  else if c <? 0x10000 then [0xE0 + c / 4096; 0x80 + (c / 64) mod 64; 0x80 + c mod 64]
  else [0xF0 + c / 262144; 0x80 + (c / 4096) mod 64; 0x80 + (c / 64) mod 64;
        0x80 + c mod 64].

(** The standard UTF-16 encoding of a code point and of a list of them. *)
Definition utf16_encode_cp (c : Z) : list Z :=
  if c <? 0x10000 then [c]
  else [0xD800 + (c - 0x10000) / 1024; 0xDC00 + (c - 0x10000) mod 1024].

Definition utf16_encode (cps : list Z) : list Z := flat_map utf16_encode_cp cps.

(** A Unicode scalar value: a code point that is not a surrogate. *)
Definition is_scalar (c : Z) : bool :=
  (0 <=? c) && (c <? 0x110000) && negb ((0xD800 <=? c) && (c <=? 0xDFFF)).

(** The number of bytes [X3fHeader::X3fHeader] consumes for a version. *)
Definition header_size (version : Z) : Z :=
  if version <? X3F_VERSION_4_0 then
    if version >=? X3F_VERSION_2_1 then
      let n := if version >=? X3F_VERSION_3_0 then NUM_EXT_DATA_3_0 else NUM_EXT_DATA_2_1 in
      40 + SIZE_WHITE_BALANCE
      + (if version >=? X3F_VERSION_2_3 then SIZE_WHITE_BALANCE else 0)
      + (n + 1) + 4 * n
    else 40
  else 24.

(** The type fields of [n] directory records stored one after the other from [p]. *)
Fixpoint dir_types (buf : list Z) (p : Z) (n : nat) : list Z :=
  match n with
  | O => []
  | S n' => u32_at buf (p + 8) :: dir_types buf (p + 12) n'
  end.

(** [m] reads exactly [k] bytes from any cursor: it succeeds when they lie
    inside the buffer, moving the cursor past them, and fails otherwise. *)
Definition reads {A} (m : M A) (k : Z) : Prop :=
  forall buf p, 0 <= p <= Z.of_nat (length buf) ->
    (p + k <= Z.of_nat (length buf) -> exists a, m (mkBS buf p) = Ok a (mkBS buf (p + k)))
    /\ (Z.of_nat (length buf) < p + k -> m (mkBS buf p) = Err OutOfBoundsRead).

Definition is_image_tag (ty : Z) : bool := (ty =? X3F_IMAG) || (ty =? X3F_IMA2).

(** What a later state of the decoder keeps of an earlier one. *)
Definition dec_le (d d' : X3fDecoder) : Prop :=
  images d `prefix_of` images d'
  /\ (forall k, is_Some (properties d !! k) -> is_Some (properties d' !! k))
  /\ (is_Some (camf d) -> is_Some (camf d')).

(** ** Concrete files *)

Definition chars_make_example : list Z :=
  ascii_units "Make" ++ [0] ++ ascii_units "Example" ++ [0].

(** A file whose directory holds one property list section, at offset 256. *)
Definition file_prop (fmt n : Z) (entries : list (Z * Z)) (chars : list Z) : list Z :=
  build_file (header_bytes X3F_VERSION_2_0 256) [(X3F_PROP, prop_section fmt n entries chars)].

Definition X3F_JUNK : Z := 0x4b4e554a.

(** A directory of two entries: an entry of unknown type "JUNK" whose offset
    is [junk_off], then an image entry at offset 256. *)
Definition file_junk (junk_off : Z) : list Z :=
  header_bytes X3F_VERSION_2_0 256 ++ image_section
  ++ le32 X3F_SECd ++ le32 X3F_VERSION_2_0 ++ le32 2
  ++ le32 junk_off ++ le32 0 ++ le32 X3F_JUNK
  ++ le32 256 ++ le32 28 ++ le32 X3F_IMAG
  ++ le32 284.

Definition file_one_bad_entry : list Z :=
  file_prop 0 2 [(0, 5); (0, 100000)] chars_make_example.

Definition file_empty_name : list Z := file_prop 0 1 [(4, 5)] chars_make_example.

(** ** Reader lemmas *)

Lemma bind_Ok {A B} (m : M A) (k : A -> M B) bs a bs' :
  m bs = Ok a bs' -> (m ≫= k) bs = k a bs'.
Proof. intros H. unfold mbind, M_bind. now rewrite H. Qed.

Lemma bind_Err {A B} (m : M A) (k : A -> M B) bs e :
  m bs = Err e -> (m ≫= k) bs = Err e.
Proof. intros H. unfold mbind, M_bind. now rewrite H. Qed.

Lemma bind_assoc {A B C} (m : M A) (k1 : A -> M B) (k2 : B -> M C) bs :
  ((m ≫= k1) ≫= k2) bs = (m ≫= fun x => k1 x ≫= k2) bs.
Proof. unfold mbind, M_bind. now destruct (m bs). Qed.

Lemma ret_Ok {A} (a : A) bs : mret (M := M) a bs = Ok a bs.
Proof. reflexivity. Qed.

Lemma getData_at buf p n :
  0 <= p -> 0 <= n -> p + n <= Z.of_nat (length buf) ->
  getData n (mkBS buf p) = Ok (take (Z.to_nat n) (drop (Z.to_nat p) buf)) (mkBS buf (p + n)).
Proof.
  intros Hp Hn Hs. unfold getData, bs_size; cbn [bs_pos bs_buf].
  replace ((0 <=? n) && (p + n <=? Z.of_nat (length buf))) with true; [reflexivity|].
  symmetry. apply andb_true_intro; split; apply Z.leb_le; lia.
Qed.

Lemma getData_out buf p n :
  p + n > Z.of_nat (length buf) -> getData n (mkBS buf p) = Err OutOfBoundsRead.
Proof.
  intros Hs. unfold getData, bs_size; cbn [bs_pos bs_buf].
  replace (p + n <=? Z.of_nat (length buf)) with false by (symmetry; apply Z.leb_gt; lia).
  now rewrite andb_false_r.
Qed.

Lemma getU32_at buf p :
  0 <= p -> p + 4 <= Z.of_nat (length buf) ->
  getU32 (mkBS buf p) = Ok (u32_at buf p) (mkBS buf (p + 4)).
Proof. intros. unfold getU32. rewrite getData_at by lia. reflexivity. Qed.

Lemma getU32_out buf p :
  p + 4 > Z.of_nat (length buf) -> getU32 (mkBS buf p) = Err OutOfBoundsRead.
Proof. intros. unfold getU32. now rewrite getData_out. Qed.

Lemma setPosition_at buf p q :
  0 <= q <= Z.of_nat (length buf) -> setPosition q (mkBS buf p) = Ok tt (mkBS buf q).
Proof.
  intros Hq. unfold setPosition, bs_size; cbn [bs_buf].
  replace ((0 <=? q) && (q <=? Z.of_nat (length buf))) with true; [reflexivity|].
  symmetry. apply andb_true_intro; split; apply Z.leb_le; lia.
Qed.

Lemma take_S_drop (buf : list Z) (i : nat) (n : nat) :
  (i < length buf)%nat ->
  take (S n) (drop i buf) = (buf !!! i) :: take n (drop (S i) buf).
Proof.
  intros Hi. destruct (lookup_lt_is_Some_2 buf i Hi) as [x Hx].
  rewrite (drop_S buf x i Hx). rewrite (list_lookup_total_correct buf i x Hx).
  reflexivity.
Qed.

(** [n] single-byte reads return the [n] bytes at the cursor. *)
Lemma repeat_getByte_at n buf p :
  0 <= p -> p + Z.of_nat n <= Z.of_nat (length buf) ->
  repeatM n getByte (mkBS buf p)
  = Ok (take n (drop (Z.to_nat p) buf)) (mkBS buf (p + Z.of_nat n)).
Proof.
  revert p. induction n as [|n IH]; intros p Hp Hs.
  - cbn. now rewrite Z.add_0_r.
  - cbn [repeatM].
    assert (Hb : getByte (mkBS buf p) = Ok (buf !!! Z.to_nat p) (mkBS buf (p + 1))).
    { unfold getByte. rewrite getData_at by lia. change (Z.to_nat 1) with 1%nat.
      rewrite take_S_drop by lia. rewrite take_0. cbn [le_value]. f_equal. lia. }
    rewrite (bind_Ok _ _ _ _ _ Hb).
    rewrite (bind_Ok _ _ _ _ _ (IH (p + 1) ltac:(lia) ltac:(lia))).
    rewrite ret_Ok. rewrite take_S_drop by lia.
    replace (Z.to_nat (p + 1)) with (S (Z.to_nat p)) by lia.
    f_equal. f_equal. lia.
Qed.

(** Run one bind of the reader monad whose first computation is known. *)
Ltac step H := rewrite (bind_Ok _ _ _ _ _ H); cbv beta.

Lemma Zleb_false a b : b < a -> (a <=? b) = false.
Proof. intros; apply Z.leb_gt; lia. Qed.

Lemma Zltb_false a b : b <= a -> (a <? b) = false.
Proof. intros; apply Z.ltb_ge; lia. Qed.

Lemma Zltb_true a b : a < b -> (a <? b) = true.
Proof. intros; apply Z.ltb_lt; lia. Qed.

Lemma Zeqb_refl' a : (a =? a) = true.
Proof. apply Z.eqb_refl. Qed.

(** ** The buffer is never modified

    Every operation only moves the cursor. *)

Create HintDb keeps.

Lemma keeps_ret {A} (a : A) : keeps_buf (mret (M := M) a).
Proof. intros bs b bs' H. now inversion H. Qed.

Lemma keeps_throw {A} e : keeps_buf (throw (A := A) e).
Proof. intros bs b bs' H. discriminate. Qed.

Lemma keeps_bind {A B} (m : M A) (k : A -> M B) :
  keeps_buf m -> (forall a, keeps_buf (k a)) -> keeps_buf (m ≫= k).
Proof.
  intros Hm Hk bs b bs' H. unfold mbind, M_bind in H.
  destruct (m bs) as [a bs1|e] eqn:E; [|discriminate].
  rewrite (Hk a bs1 b bs' H). exact (Hm bs a bs1 E).
Qed.

Lemma keeps_getData n : keeps_buf (getData n).
Proof.
  intros bs a bs' H. unfold getData in H.
  destruct (_ && _); [|discriminate]. now inversion H.
Qed.

Lemma keeps_getU32 : keeps_buf getU32.
Proof.
  intros bs a bs' H. unfold getU32 in H.
  destruct (getData 4 bs) eqn:E; [|discriminate]. inversion H; subst.
  exact (keeps_getData 4 bs _ _ E).
Qed.

Lemma keeps_getFloat : keeps_buf getFloat.
Proof. exact keeps_getU32. Qed.

Lemma keeps_getByte : keeps_buf getByte.
Proof.
  intros bs a bs' H. unfold getByte in H.
  destruct (getData 1 bs) eqn:E; [|discriminate]. inversion H; subst.
  exact (keeps_getData 1 bs _ _ E).
Qed.

Lemma keeps_setPosition q : keeps_buf (setPosition q).
Proof.
  intros bs a bs' H. unfold setPosition in H.
  destruct (_ && _); [|discriminate]. now inversion H.
Qed.

Lemma keeps_getPosition : keeps_buf getPosition.
Proof. intros bs a bs' H. now inversion H. Qed.

Lemma keeps_getSize : keeps_buf getSize.
Proof. intros bs a bs' H. now inversion H. Qed.

Lemma keeps_getRemainSize : keeps_buf getRemainSize.
Proof. intros bs a bs' H. now inversion H. Qed.

Lemma keeps_isValid o c : keeps_buf (isValid o c).
Proof. intros bs a bs' H. now inversion H. Qed.

#[global] Hint Resolve keeps_ret keeps_throw keeps_getData keeps_getU32 keeps_getFloat
  keeps_getByte keeps_setPosition keeps_getPosition keeps_getSize keeps_getRemainSize
  keeps_isValid : keeps.

Ltac keeps :=
  repeat match goal with
  | |- keeps_buf (_ ≫= _) => apply keeps_bind; [|intro]
  | |- keeps_buf (if ?b then _ else _) => destruct b
  | |- keeps_buf (match ?x with _ => _ end) => destruct x
  | _ => solve [eauto with keeps]
  end.

Lemma keeps_repeatM {A} n (m : M A) : keeps_buf m -> keeps_buf (repeatM n m).
Proof. intros Hm. induction n as [|n IH]; cbn [repeatM]; keeps. Qed.

Lemma keeps_getString : keeps_buf getString.
Proof. unfold getString. keeps. Qed.

#[global] Hint Resolve keeps_repeatM keeps_getString : keeps.

Lemma keeps_addProperty ds pe props : keeps_buf (addProperty ds pe props).
Proof. unfold addProperty. keeps. Qed.

#[global] Hint Resolve keeps_addProperty : keeps.

Lemma keeps_addProperty_loop n ds props : keeps_buf (addProperty_loop n ds props).
Proof.
  revert props. induction n as [|n IH]; intros props; cbn [addProperty_loop];
    unfold X3fPropertyEntry_read; keeps.
Qed.

#[global] Hint Resolve keeps_addProperty_loop : keeps.

Lemma keeps_dispatchEntry dir dec : keeps_buf (dispatchEntry dir dec).
Proof.
  unfold dispatchEntry, X3fImageData_read, addProperties, X3fPropertyList_read,
    X3fCamf_read; keeps.
Qed.

(** ** Cursor effects of the reads *)

Lemma getU32_Ok bs x bs' :
  getU32 bs = Ok x bs' -> bs' = mkBS (bs_buf bs) (bs_pos bs + 4).
Proof.
  unfold getU32, getData. destruct (_ && _); intros H; [|discriminate].
  now inversion H.
Qed.

Lemma setPosition_Ok bs q u bs' :
  setPosition q bs = Ok u bs' -> bs' = mkBS (bs_buf bs) q /\ 0 <= q <= bs_size bs.
Proof.
  unfold setPosition. destruct (0 <=? q) eqn:E1, (q <=? bs_size bs) eqn:E2;
    cbn; intros H; try discriminate.
  inversion H. apply Z.leb_le in E1, E2. split; [reflexivity|lia].
Qed.

(** A directory entry record is 12 bytes; its signature read at [offset]
    leaves the cursor after the record, and [offset] addresses 4 bytes. *)
Lemma X3fDirectoryEntry_read_Ok bs dir bs' :
  X3fDirectoryEntry_read bs = Ok dir bs' ->
  bs' = mkBS (bs_buf bs) (bs_pos bs + 12)
  /\ 0 <= de_offset dir /\ de_offset dir + 4 <= bs_size bs.
Proof.
  unfold X3fDirectoryEntry_read, mbind, M_bind.
  destruct (getU32 bs) as [off b1|] eqn:E1; [|discriminate].
  destruct (getU32 b1) as [len b2|] eqn:E2; [|discriminate].
  destruct (getU32 b2) as [ty b3|] eqn:E3; [|discriminate].
  apply getU32_Ok in E1, E2, E3. subst. cbn [getPosition bs_buf bs_pos].
  destruct (setPosition off _) as [[] b4|] eqn:E4; [|discriminate].
  apply setPosition_Ok in E4 as [-> Hoff]. cbn [bs_buf bs_pos].
  unfold getU32, getData at 1; cbn [bs_buf bs_pos].
  replace (0 <=? 4) with true by reflexivity. cbn [andb].
  destruct (off + 4 <=? _) eqn:E5; [|discriminate].
  apply Z.leb_le in E5.
  destruct (setPosition _ _) as [[] b6|] eqn:E6; [|discriminate].
  apply setPosition_Ok in E6 as [-> _]. intros H. inversion H; subst.
  cbn. unfold bs_size in *; cbn in *. repeat split; [f_equal; lia | lia | lia].
Qed.

(** [parseEntry] ends at the position saved after the 12-byte record. *)
Lemma parseEntry_Ok dec bs dec' bs' :
  parseEntry dec bs = Ok dec' bs' -> bs' = mkBS (bs_buf bs) (bs_pos bs + 12).
Proof.
  unfold parseEntry, mbind, M_bind.
  destruct (X3fDirectoryEntry_read bs) as [dir b1|] eqn:E1; [|discriminate].
  apply X3fDirectoryEntry_read_Ok in E1 as [-> _]. cbn [getPosition bs_pos bs_buf].
  destruct (setPosition _ _) as [[] b2|] eqn:E2; [|discriminate].
  apply setPosition_Ok in E2 as [-> _].
  destruct (dispatchEntry dir dec _) as [d b3|] eqn:E3; [|discriminate].
  apply keeps_dispatchEntry in E3. cbn [bs_buf] in E3.
  destruct (setPosition _ b3) as [[] b4|] eqn:E4; [|discriminate].
  apply setPosition_Ok in E4 as [-> _]. intros H. inversion H; subst.
  now rewrite E3.
Qed.

Lemma dispatchEntry_unknown dir dec bs :
  known_tag (de_type dir) = false -> dispatchEntry dir dec bs = Ok dec bs.
Proof.
  unfold known_tag, dispatchEntry. intros Hk.
  repeat rewrite orb_false_iff in Hk. destruct Hk as [[[-> ->] ->] ->].
  reflexivity.
Qed.

Lemma parseEntry_unknown dec bs dir bs1 :
  X3fDirectoryEntry_read bs = Ok dir bs1 -> known_tag (de_type dir) = false ->
  parseEntry dec bs = Ok dec (mkBS (bs_buf bs) (bs_pos bs + 12)).
Proof.
  intros E1 Hk. pose proof (X3fDirectoryEntry_read_Ok _ _ _ E1) as [Hb1 [H0 H4]].
  unfold parseEntry. step E1. subst bs1.
  step (eq_refl : getPosition (mkBS (bs_buf bs) (bs_pos bs + 12))
                  = Ok (bs_pos bs + 12) (mkBS (bs_buf bs) (bs_pos bs + 12))).
  unfold bs_size in H4.
  step (setPosition_at (bs_buf bs) (bs_pos bs + 12) (de_offset dir) ltac:(lia)).
  step (dispatchEntry_unknown dir dec (mkBS (bs_buf bs) (de_offset dir)) Hk).
  destruct (setPosition (bs_pos bs + 12) (mkBS (bs_buf bs) (de_offset dir)))
    as [[] b|] eqn:E; unfold mbind, M_bind; rewrite E.
  - apply setPosition_Ok in E as [-> _]. reflexivity.
  - (* the cursor after the record was valid when [X3fDirectoryEntry_read]
       restored it *)
    exfalso. revert E1. unfold X3fDirectoryEntry_read, mbind, M_bind.
    destruct (getU32 bs) as [o b1|] eqn:F1; [|discriminate].
    destruct (getU32 b1) as [l b2|] eqn:F2; [|discriminate].
    destruct (getU32 b2) as [t b3|] eqn:F3; [|discriminate].
    apply getU32_Ok in F1, F2, F3. subst. cbn [getPosition bs_buf bs_pos].
    destruct (setPosition o _) as [[] b4|] eqn:F4; [|discriminate].
    apply setPosition_Ok in F4 as [-> _].
    destruct (getU32 _) as [sid b5|] eqn:F5; [|discriminate].
    apply getU32_Ok in F5 as ->. cbn [bs_buf bs_pos].
    unfold setPosition in E |- *. cbn [bs_buf bs_size] in E |- *.
    replace (bs_pos bs + 4 + 4 + 4) with (bs_pos bs + 12) by lia.
    destruct (_ && _); [discriminate|]. intros; discriminate.
Qed.

(** ** Property strings and entries *)

Lemma getString_Ok buf q :
  0 <= q <= Z.of_nat (length buf) ->
  exists q', getString (mkBS buf q) = Ok (string_at buf q) (mkBS buf q').
Proof.
  intros Hq. unfold string_at.
  assert (Hex : exists s q', getString (mkBS buf q) = Ok s (mkBS buf q')).
  { unfold getString.
    step (eq_refl : getRemainSize (mkBS buf q)
                    = Ok (Z.of_nat (length buf) - q) (mkBS buf q)).
    set (r := Z.of_nat (length buf) - q).
    assert (Hr : 0 <= u32 r <= r).
    { unfold u32. pose proof (Z.mod_pos_bound r (2 ^ 32) ltac:(lia)).
      pose proof (Z.mod_le r (2 ^ 32) ltac:(lia) ltac:(lia)). lia. }
    assert (Hm : 0 <= u32 r / 2 * 2 <= r).
    { pose proof (Z.div_pos (u32 r) 2 ltac:(lia) ltac:(lia)).
      pose proof (Z.mul_div_le (u32 r) 2 ltac:(lia)). lia. }
    step (getData_at buf q (u32 r / 2 * 2) ltac:(lia) ltac:(lia) ltac:(lia)).
    eexists _, _. reflexivity. }
  destruct Hex as [s [q' E]]. rewrite E. eauto.
Qed.

Lemma isValid_at buf p o c :
  isValid o c (mkBS buf p) = Ok ((0 <=? o) && (o + c <=? Z.of_nat (length buf))) (mkBS buf p).
Proof. reflexivity. Qed.

(** One entry: inserted when both offsets address a unit of the buffer,
    skipped otherwise; the cursor is back at [p] in both cases. *)
Lemma addProperty_at buf p ds pe props :
  0 <= p <= Z.of_nat (length buf) ->
  addProperty ds pe props (mkBS buf p) = Ok (prop_insert buf ds props pe) (mkBS buf p).
Proof.
  intros Hp. unfold addProperty, prop_insert, prop_entry_valid.
  step (eq_refl : getPosition (mkBS buf p) = Ok p (mkBS buf p)).
  step (isValid_at buf p (u32 (key_off pe * 2 + ds)) 2).
  step (isValid_at buf p (u32 (val_off pe * 2 + ds)) 2).
  unfold prop_addr.
  set (a := u32 (key_off pe * 2 + ds)). set (b := u32 (val_off pe * 2 + ds)).
  destruct ((0 <=? a) && (a + 2 <=? Z.of_nat (length buf))) eqn:Ea;
  destruct ((0 <=? b) && (b + 2 <=? Z.of_nat (length buf))) eqn:Eb; cbn [andb];
    cbv beta iota;
    try (step (ret_Ok props (mkBS buf p));
         step (setPosition_at buf p p Hp); reflexivity).
  apply andb_prop in Ea as [Ea1 Ea2]; apply andb_prop in Eb as [Eb1 Eb2].
  apply Z.leb_le in Ea1, Ea2, Eb1, Eb2.
  rewrite bind_assoc. step (setPosition_at buf p a ltac:(lia)).
  destruct (getString_Ok buf a ltac:(lia)) as [qa Ha].
  rewrite bind_assoc. step Ha.
  rewrite bind_assoc. step (setPosition_at buf qa b ltac:(lia)).
  destruct (getString_Ok buf b ltac:(lia)) as [qb Hb].
  rewrite bind_assoc. step Hb.
  step (ret_Ok (<[string_at buf a := string_at buf b]> props) (mkBS buf qb)).
  step (setPosition_at buf qb p Hp). reflexivity.
Qed.

(** The loop over the entries is a left fold of [prop_insert]. *)
Lemma addProperty_loop_at buf pes p ds props :
  0 <= p -> p + 8 * Z.of_nat (length pes) <= Z.of_nat (length buf) ->
  entries_at buf p pes ->
  addProperty_loop (length pes) ds props (mkBS buf p)
  = Ok (foldl (prop_insert buf ds) props pes) (mkBS buf (p + 8 * Z.of_nat (length pes))).
Proof.
  revert p props. induction pes as [|pe pes IH]; intros p props Hp Hs He.
  - cbn. now rewrite Z.add_0_r.
  - destruct He as [Hpe He]. cbn [length addProperty_loop foldl].
    step Hpe.
    step (addProperty_at buf (p + 8) ds pe props
            ltac:(rewrite length_cons in Hs; lia)).
    rewrite (IH (p + 8) _ ltac:(lia) ltac:(rewrite length_cons in Hs; lia) He).
    f_equal. f_equal. lia.
Qed.

(** ** UTF-16 decoding lemmas *)

Lemma utf16_units_take (m : nat) (l : list Z) :
  utf16_units (take (2 * m) l) = take m (utf16_units l).
Proof.
  revert l. induction m as [|m IH]; intros l; [reflexivity|].
  replace (2 * S m)%nat with (S (S (2 * m))) by lia.
  destruct l as [|b0 [|b1 l]]; [reflexivity| |].
  - cbn. destruct m; reflexivity.
  - cbn. now rewrite IH.
Qed.

Lemma utf16_units_length (l : list Z) : (2 * length (utf16_units l) <= length l)%nat.
Proof.
  assert (Hn : forall n (l : list Z), (length l <= n)%nat ->
                (2 * length (utf16_units l) <= length l)%nat).
  { induction n as [|n IH]; intros l' Hle.
    - destruct l'; cbn in *; lia.
    - destruct l' as [|b0 [|b1 l']]; cbn in *; try lia.
      specialize (IH l' ltac:(lia)). lia. }
  exact (Hn (length l) l (le_n _)).
Qed.

Lemma string_at_units buf q :
  0 <= q <= Z.of_nat (length buf) ->
  string_at buf q
  = decode_units (take (Z.to_nat (u32 (Z.of_nat (length buf) - q) / 2)) (units_at buf q)).
Proof.
  intros Hq. unfold string_at, getString.
  step (eq_refl : getRemainSize (mkBS buf q)
                  = Ok (Z.of_nat (length buf) - q) (mkBS buf q)).
  set (r := Z.of_nat (length buf) - q).
  assert (Hr : 0 <= u32 r <= r).
  { unfold u32. pose proof (Z.mod_pos_bound r (2 ^ 32) ltac:(lia)).
    pose proof (Z.mod_le r (2 ^ 32) ltac:(lia) ltac:(lia)). lia. }
  pose proof (Z.div_pos (u32 r) 2 ltac:(lia) ltac:(lia)).
  pose proof (Z.mul_div_le (u32 r) 2 ltac:(lia)).
  step (getData_at buf q (u32 r / 2 * 2) ltac:(lia) ltac:(lia) ltac:(lia)).
  cbn [mret M_ret]. unfold units_at.
  replace (Z.to_nat (u32 r / 2 * 2)) with (2 * Z.to_nat (u32 r / 2))%nat by lia.
  now rewrite utf16_units_take.
Qed.

(** For a buffer indexed by [uint32_t], the whole rest of the buffer is scanned. *)
Lemma string_at_all_units buf q :
  0 <= q <= Z.of_nat (length buf) -> Z.of_nat (length buf) < 2 ^ 32 ->
  string_at buf q = decode_units (units_at buf q).
Proof.
  intros Hq Hs. rewrite string_at_units by lia. f_equal. apply take_ge.
  unfold units_at. pose proof (utf16_units_length (drop (Z.to_nat q) buf)).
  rewrite length_drop in H.
  assert (Hu : u32 (Z.of_nat (length buf) - q) = Z.of_nat (length buf) - q).
  { unfold u32. apply Z.mod_small. lia. }
  rewrite Hu. apply Nat2Z.inj_le. rewrite Z2Nat.id by (apply Z.div_pos; lia).
  apply Z.div_le_lower_bound; lia.
Qed.

Lemma scan_nul_app (us l : list Z) (i : nat) :
  Forall (fun u => u <> 0) us -> scan_nul (us ++ l) i = scan_nul l (i + length us).
Proof.
  revert i. induction us as [|u us IH]; intros i Hus.
  - cbn. now rewrite Nat.add_0_r.
  - inversion Hus as [|? ? Hu Hus']; subst. cbn [app scan_nul].
    rewrite (proj2 (Z.eqb_neq u 0) Hu). rewrite IH by exact Hus'.
    f_equal. cbn. lia.
Qed.

Lemma emit_fails ch room k :
  (forall r, fst (k r) = false) -> fst (emit ch room k) = false.
Proof.
  intros Hk. unfold emit. destruct (room <? bytesToWrite ch); [reflexivity|].
  specialize (Hk (room - bytesToWrite ch)).
  destruct (k (room - bytesToWrite ch)). exact Hk.
Qed.

Lemma high_not_low hi : is_high hi = true -> is_low hi = false.
Proof.
  unfold is_high, is_low, UNI_SUR_HIGH_START, UNI_SUR_HIGH_END, UNI_SUR_LOW_START,
    UNI_SUR_LOW_END.
  intros H. apply andb_prop in H as [H1 H2]. apply Z.leb_le in H1, H2.
  rewrite (Zleb_false 0xDC00 hi) by lia. reflexivity.
Qed.

(** A source ending with a high surrogate always fails. *)
Lemma convert_ends_high hi : is_high hi = true ->
  forall l room, fst (ConvertUTF16toUTF8 (l ++ [hi]) room) = false.
Proof.
  intros Hhi l. pose (n := length l). assert (Hle : (length l <= n)%nat) by lia.
  clearbody n. revert l Hle.
  induction n as [|n IH]; intros l Hle room.
  - destruct l; [|cbn in Hle; lia]. cbn. now rewrite Hhi.
  - destruct l as [|ch l]; [cbn; now rewrite Hhi|]. cbn in Hle.
    cbn [app ConvertUTF16toUTF8].
    destruct (is_high ch).
    + destruct l as [|x l].
      * cbn [app]. rewrite (high_not_low hi Hhi).
        apply emit_fails. intros r. cbn. now rewrite Hhi.
      * cbn [app]. cbn in Hle. destruct (is_low x).
        -- apply emit_fails. intros r. apply IH. lia.
        -- apply emit_fails. intros r. apply (IH (x :: l)). cbn; lia.
    + apply emit_fails. intros r. apply IH. lia.
Qed.

Lemma combine_surrogates_range hi lo :
  is_high hi = true -> is_low lo = true ->
  0x10000 <= combine_surrogates hi lo < 0x110000.
Proof.
  unfold is_high, is_low, combine_surrogates, UNI_SUR_HIGH_START, UNI_SUR_HIGH_END,
    UNI_SUR_LOW_START, UNI_SUR_LOW_END, halfShift, halfBase.
  intros H1 H2. apply andb_prop in H1 as [H1 H1']; apply andb_prop in H2 as [H2 H2'].
  apply Z.leb_le in H1, H1', H2, H2'. rewrite Z.shiftl_mul_pow2 by lia. lia.
Qed.

Ltac zle := apply Z.leb_le; vm_compute; reflexivity.
Ltac zlt := apply Z.ltb_lt; vm_compute; reflexivity.

(** ** Inversion of the readers *)

Lemma bind_Ok_inv {A B} (m : M A) (k : A -> M B) bs b bs' :
  (m ≫= k) bs = Ok b bs' -> exists a bs1, m bs = Ok a bs1 /\ k a bs1 = Ok b bs'.
Proof.
  unfold mbind, M_bind. destruct (m bs) as [a bs1|e]; [|discriminate]. eauto.
Qed.

Ltac inv_bind H :=
  let a := fresh "a" in let b := fresh "bs" in let E := fresh "E" in
  apply bind_Ok_inv in H as [a [b [E H]]].

Lemma getU32_val buf p x bs' :
  getU32 (mkBS buf p) = Ok x bs' -> x = u32_at buf p /\ bs' = mkBS buf (p + 4).
Proof.
  unfold getU32, getData. cbn [bs_pos bs_buf]. destruct (_ && _); [|discriminate].
  intros H. now inversion H.
Qed.

Lemma X3fDirectorySection_read_val buf d ds bs' :
  X3fDirectorySection_read (mkBS buf d) = Ok ds bs' ->
  dirNum ds = u32_at buf (d + 8) /\ bs' = mkBS buf (d + 12).
Proof.
  unfold X3fDirectorySection_read. intros H.
  inv_bind H. inv_bind H. apply getU32_val in E as [-> ->].
  apply getU32_val in E0 as [-> ->].
  destruct (_ && _); [discriminate|]. destruct (_ <? _); [discriminate|].
  inv_bind H. apply getU32_val in E as [-> ->]. destruct (_ <? 1); [discriminate|].
  cbv [mret M_ret] in H. injection H as <- <-. cbn. split; f_equal; lia.
Qed.

Lemma keeps_X3fHeader_read : keeps_buf X3fHeader_read.
Proof. unfold X3fHeader_read. keeps. Qed.

Lemma parser_ctor_buf input u bs :
  X3fParser_ctor input = Ok u bs -> bs = mkBS input (bs_pos bs).
Proof.
  unfold X3fParser_ctor. destruct (_ <? _); [discriminate|].
  destruct (X3fHeader_read (mkBS input 0)) as [h b|[]] eqn:E; try discriminate.
  intros H. injection H as _ <-. apply keeps_X3fHeader_read in E. destruct b. cbn in *.
  now subst.
Qed.

Lemma prop_insert_skip buf ds props pes :
  foldl (prop_insert buf ds) props pes
  = foldl (prop_insert buf ds) props (List.filter (prop_entry_valid buf ds) pes).
Proof.
  revert props. induction pes as [|pe pes IH]; intros props; [reflexivity|].
  cbn [foldl List.filter]. destruct (prop_entry_valid buf ds pe) eqn:E.
  - cbn [foldl]. apply IH.
  - replace (prop_insert buf ds props pe) with props by (unfold prop_insert; now rewrite E).
    apply IH.
Qed.

Lemma parseEntries_add m k dec bs :
  parseEntries (m + k) dec bs = (parseEntries m dec ≫= parseEntries k) bs.
Proof.
  revert dec bs. induction m as [|m IH]; intros dec bs; [reflexivity|].
  cbn [parseEntries Nat.add]. rewrite bind_assoc.
  specialize (fun d b => IH d b). unfold mbind, M_bind in *.
  destruct (parseEntry dec bs) as [d b|e]; [apply IH|reflexivity].
Qed.

Lemma parseEntries_pos m dec buf q d' bs' :
  parseEntries m dec (mkBS buf q) = Ok d' bs' -> bs' = mkBS buf (q + 12 * Z.of_nat m).
Proof.
  revert dec q. induction m as [|m IH]; intros dec q H.
  - cbv [parseEntries mret M_ret] in H. injection H as _ <-. f_equal. lia.
  - cbn [parseEntries] in H. inv_bind H. apply parseEntry_Ok in E. cbn in E. subst.
    rewrite (IH _ _ H). f_equal. lia.
Qed.

Lemma parseEntry_offset_out dec buf p :
  0 <= p -> p + 12 <= Z.of_nat (length buf) -> Z.of_nat (length buf) < u32_at buf p + 4 ->
  parseEntry dec (mkBS buf p) = Err OutOfBoundsRead.
Proof.
  intros Hp Hs Ho. unfold parseEntry. apply bind_Err. unfold X3fDirectoryEntry_read.
  step (getU32_at buf p ltac:(lia) ltac:(lia)).
  step (getU32_at buf (p + 4) ltac:(lia) ltac:(lia)).
  step (getU32_at buf (p + 4 + 4) ltac:(lia) ltac:(lia)).
  step (eq_refl : getPosition (mkBS buf (p + 4 + 4 + 4))
                  = Ok (p + 4 + 4 + 4) (mkBS buf (p + 4 + 4 + 4))).
  destruct (Z_le_dec 0 (u32_at buf p)) as [H0|H0];
    [destruct (Z_le_dec (u32_at buf p) (Z.of_nat (length buf))) as [H1|H1]|].
  - step (setPosition_at buf (p + 4 + 4 + 4) (u32_at buf p) ltac:(lia)).
    apply bind_Err. apply getU32_out. lia.
  - apply bind_Err. unfold setPosition, bs_size. cbn [bs_buf].
    now rewrite (Zleb_false (u32_at buf p) (Z.of_nat (length buf))), andb_false_r by lia.
  - apply bind_Err. unfold setPosition, bs_size. cbn [bs_buf].
    now rewrite (Zleb_false 0 (u32_at buf p)) by lia.
Qed.

Lemma parser_ctor_size input u bs :
  X3fParser_ctor input = Ok u bs -> 232 <= Z.of_nat (length input).
Proof.
  unfold X3fParser_ctor. destruct (_ <? _) eqn:E; [discriminate|].
  intros _. apply Z.ltb_ge in E. lia.
Qed.

Lemma walk_abort input u b ds bs1 m dec1 p k :
  X3fParser_ctor input = Ok u b ->
  let d := u32_at input (u32 (Z.of_nat (length input) - 4)) in
  X3fDirectorySection_read (mkBS input d) = Ok ds bs1 ->
  Z.to_nat (dirNum ds) = (m + S k)%nat ->
  parseEntries m emptyDecoder (mkBS input (d + 12)) = Ok dec1 (mkBS input p) ->
  p + 12 <= Z.of_nat (length input) -> Z.of_nat (length input) < u32_at input p + 4 ->
  parse input = Err OutOfBoundsRead.
Proof.
  intros Hc d Hds Hn Hm Hp Ho.
  pose proof (parser_ctor_size _ _ _ Hc) as Hs.
  pose proof (parseEntries_pos _ _ _ _ _ _ Hm) as Hq. injection Hq as Hq.
  unfold parse. rewrite Hc, (parser_ctor_buf _ _ _ Hc). unfold parseData.
  step (eq_refl : getSize (mkBS input (bs_pos b))
                  = Ok (Z.of_nat (length input)) (mkBS input (bs_pos b))).
  assert (Hu : 0 <= u32 (Z.of_nat (length input) - 4) <= Z.of_nat (length input) - 4).
  { unfold u32. split; [apply Z.mod_pos_bound; lia | apply Z.mod_le; lia]. }
  step (setPosition_at input (bs_pos b) (u32 (Z.of_nat (length input) - 4)) ltac:(lia)).
  step (getU32_at input (u32 (Z.of_nat (length input) - 4)) ltac:(lia) ltac:(lia)).
  fold d. destruct (Z_le_dec 0 d) as [H0|H0].
  - step (setPosition_at input (u32 (Z.of_nat (length input) - 4) + 4) d ltac:(lia)).
    step Hds. destruct (X3fDirectorySection_read_val _ _ _ _ Hds) as [_ ->].
    rewrite Hn, parseEntries_add. step Hm. cbn [parseEntries].
    apply bind_Err. apply parseEntry_offset_out; lia.
  - apply bind_Err. unfold setPosition, bs_size. cbn [bs_buf].
    now rewrite (Zleb_false 0 d) by lia.
Qed.

(** * Claims *)

(** C1. For a header whose version is >= 4.0, decoding reads
    the 4-byte signature, the 4-byte version and the 16-byte unique
    identifier, and nothing else: the decoded header is determined by the
    first 24 bytes of the buffer, whatever follows them, and the cursor
    stops at byte 24. *)
Theorem header_v4_reads_24_bytes (buf : list Z) :
  24 <= Z.of_nat (length buf) ->
  u32_at buf 0 = X3F_FOVb -> X3F_VERSION_4_0 <= u32_at buf 4 ->
  X3fHeader_read (mkBS buf 0) =
    Ok (mkHeader X3F_FOVb (u32_at buf 4) (take 16 (drop 8 buf)) 0 0 0 0 [] [] [] [])
       (mkBS buf 24).
Proof.
  intros Hs Hid Hv. unfold X3fHeader_read.
  step (getU32_at buf 0 ltac:(lia) ltac:(lia)).
  step (getU32_at buf (0 + 4) ltac:(lia) ltac:(lia)).
  rewrite Hid, Zeqb_refl'. cbn [negb].
  step (repeat_getByte_at (Z.to_nat SIZE_UNIQUE_IDENTIFIER) buf (0 + 4 + 4)
          ltac:(lia) ltac:(unfold SIZE_UNIQUE_IDENTIFIER; lia)).
  change (u32_at buf (0 + 4)) with (u32_at buf 4).
  rewrite (Zltb_false _ _ Hv). reflexivity.
Qed.

Lemma header_v4_reads_24_bytes_witness :
  let buf := header_bytes X3F_VERSION_4_0 232 in
  (24 <= Z.of_nat (length buf) /\ u32_at buf 0 = X3F_FOVb
   /\ X3F_VERSION_4_0 <= u32_at buf 4)
  /\ X3fHeader_read (mkBS buf 0) =
     Ok (mkHeader X3F_FOVb (u32_at buf 4) (take 16 (drop 8 buf)) 0 0 0 0 [] [] [] [])
        (mkBS buf 24).
Proof.
  intros buf. split; [split; [zle | split; [vm_compute; reflexivity | zle]] |].
  apply header_v4_reads_24_bytes; [zle | vm_compute; reflexivity | zle].
Defined.

(** C1 counterexample: a version 4.0 header whose bytes 8..23 are 1..16;
    decoding reads them as the unique identifier and stops at byte 24, not 8. *)
Lemma header_v4_reads_past_byte_8 :
  match X3fHeader_read (mkBS (le32 X3F_FOVb ++ le32 X3F_VERSION_4_0
                              ++ map Z.of_nat (seq 1 16) ++ zeros 208) 0) with
  | Ok h bs => bs_pos bs = 24 /\ unique_identifier h = map Z.of_nat (seq 1 16)
  | Err _ => False
  end.
Proof. vm_compute. split; reflexivity. Qed.

(** C2. The loop over the extended type tags runs while
    [i <= num_ext_data]: a version 2.1 header consumes 33 tag bytes, 233
    bytes in all, one more than the 232-byte layout (104 + 128) that the
    size check of [X3fParser] assumes; so a 232-byte version 2.1 file fails
    to parse. *)
Theorem header_v21_reads_33_type_bytes :
  match X3fHeader_read (mkBS (header_bytes X3F_VERSION_2_1 300) 0) with
  | Ok h bs => bs_pos bs = 233 /\ length (extended_types h) = 33%nat
               /\ length (extended_data h) = 32%nat
  | Err _ => False
  end
  /\ X3fParser_ctor (header_bytes X3F_VERSION_2_1 232) = Err HeaderIOError.
Proof. vm_compute. repeat split; reflexivity. Qed.

(** C3. In a property list section with the right signature and
    a version >= 2.0, a count of 0 returns at once, with the collection
    unchanged, whatever the character format; with a count >= 1, a nonzero
    character format fails with [UnsupportedPropertyEncoding]. *)
Theorem property_format_checked_after_count (buf : list Z) (off q : Z)
    (pl : X3fPropertyList) (bs1 : ByteStream) (props : Props) :
  0 <= off <= Z.of_nat (length buf) ->
  X3fPropertyList_read (mkBS buf off) = Ok pl bs1 ->
  pl_id pl = X3F_SECp -> X3F_VERSION_2_0 <= pl_version pl ->
  (num pl = 0 -> addProperties off props (mkBS buf q) = Ok props bs1)
  /\ (1 <= num pl -> format pl <> 0 ->
      addProperties off props (mkBS buf q) = Err UnsupportedPropertyEncoding).
Proof.
  intros Hoff Hpl Hid Hv. unfold addProperties.
  step (setPosition_at buf q off Hoff). step Hpl.
  rewrite Hid, Zeqb_refl'. cbn [negb]. rewrite (Zltb_false _ _ Hv).
  split.
  - intros Hn. rewrite Hn. reflexivity.
  - intros Hn Hf. rewrite (Zltb_false _ _ Hn).
    rewrite (proj2 (Z.eqb_neq _ _) Hf). reflexivity.
Qed.

Lemma property_format_checked_after_count_witness :
  let buf := file_prop 1 0 [] [] in
  (0 <= 256 <= Z.of_nat (length buf)
   /\ X3fPropertyList_read (mkBS buf 256) = Ok (mkPropList X3F_SECp X3F_VERSION_2_0 0 1 0 0) (mkBS buf 280)
   /\ pl_id (mkPropList X3F_SECp X3F_VERSION_2_0 0 1 0 0) = X3F_SECp
   /\ X3F_VERSION_2_0 <= pl_version (mkPropList X3F_SECp X3F_VERSION_2_0 0 1 0 0))
  /\ addProperties 256 ∅ (mkBS buf 0) = Ok ∅ (mkBS buf 280).
Proof.
  intros buf.
  assert (Hr : X3fPropertyList_read (mkBS buf 256)
               = Ok (mkPropList X3F_SECp X3F_VERSION_2_0 0 1 0 0) (mkBS buf 280))
    by (vm_compute; reflexivity).
  split; [split; [split; zle | split; [exact Hr | split; [reflexivity | zle]]] |].
  apply (property_format_checked_after_count buf 256 0 _ _ ∅
           ltac:(split; zle) Hr eq_refl ltac:(zle)).
  reflexivity.
Defined.

(** C3 counterexample: a file whose property list section has a nonzero
    character format and a count of 0 parses successfully, with no
    property. *)
Lemma property_format_ignored_for_count_0 :
  match parse (file_prop 1 0 [] []) with
  | Ok d _ => properties d = ∅
  | Err _ => False
  end.
Proof. vm_compute. reflexivity. Qed.

(** C4. Within a property list section whose header passes its checks
    (signature, version >= 2.0, format 0, at most 1000 entries) and whose
    entry table lies in the buffer, every entry whose name or value offset
    ([data_start + 2 * offset], plus a 2-byte unit) falls outside the buffer
    is skipped on its own, without aborting the section: the section
    decodes, in order, all the other entries, exactly as if the skipped ones
    were absent, and the cursor ends after the table. In particular, when
    exactly one entry is in bounds, an empty collection receives exactly one
    property. *)
Theorem property_entry_out_of_bounds_skipped (buf : list Z) (off q : Z) (props : Props)
    (pl : X3fPropertyList) (pes : list X3fPropertyEntry) :
  0 <= off ->
  X3fPropertyList_read (mkBS buf off) = Ok pl (mkBS buf (off + 24)) ->
  pl_id pl = X3F_SECp -> X3F_VERSION_2_0 <= pl_version pl ->
  format pl = 0 -> num pl <= 1000 -> Z.of_nat (length pes) = num pl ->
  entries_at buf (off + 24) pes ->
  off + 24 + 8 * num pl <= Z.of_nat (length buf) ->
  let ds := u32 (off + 24 + num pl * 8) in
  addProperties off props (mkBS buf q)
  = Ok (foldl (prop_insert buf ds) props (List.filter (prop_entry_valid buf ds) pes))
       (mkBS buf (off + 24 + 8 * num pl))
  /\ (length (List.filter (prop_entry_valid buf ds) pes) = 1%nat ->
      map_size (foldl (prop_insert buf ds) ∅ (List.filter (prop_entry_valid buf ds) pes))
      = 1%nat).
Proof.
  intros Hoff Hpl Hid Hv Hf Hn Hlen He Hs ds. split.
  - rewrite <- prop_insert_skip. unfold addProperties.
    step (setPosition_at buf q off ltac:(lia)). step Hpl.
    rewrite Hid, Zeqb_refl'. cbn [negb]. rewrite (Zltb_false _ _ Hv).
    destruct (num pl <? 1) eqn:E1.
    + apply Z.ltb_lt in E1. destruct pes as [|pe pes]; [|cbn [length] in Hlen; lia].
      rewrite ret_Ok. cbn [foldl]. do 2 f_equal. lia.
    + apply Z.ltb_ge in E1. rewrite Hf. cbn [Z.eqb negb].
      rewrite (Zltb_false 1000 (num pl)) by lia.
      step (eq_refl : getPosition (mkBS buf (off + 24)) = Ok (off + 24) (mkBS buf (off + 24))).
      cbv zeta. fold ds. replace (Z.to_nat (num pl)) with (length pes) by lia.
      rewrite (addProperty_loop_at buf pes (off + 24) ds props ltac:(lia) ltac:(lia) He).
      now rewrite Hlen.
  - intros H1.
    destruct (List.filter (prop_entry_valid buf ds) pes) as [|pe [|pe' l]] eqn:Ef;
      cbn [length] in H1; try lia.
    assert (Hin : In pe (List.filter (prop_entry_valid buf ds) pes)) by (rewrite Ef; now left).
    apply filter_In in Hin as [_ Hval]. cbn [foldl]. unfold prop_insert. rewrite Hval.
    rewrite insert_empty. apply map_size_singleton.
Qed.

Lemma property_entry_out_of_bounds_skipped_witness :
  let buf := file_one_bad_entry in
  let pl := mkPropList X3F_SECp X3F_VERSION_2_0 2 0 0 13 in
  let pes := [mkPropEntry 0 5; mkPropEntry 0 100000] in
  let ds := u32 (256 + 24 + num pl * 8) in
  (X3fPropertyList_read (mkBS buf 256) = Ok pl (mkBS buf (256 + 24))
   /\ entries_at buf (256 + 24) pes
   /\ 256 + 24 + 8 * num pl <= Z.of_nat (length buf)
   /\ length (List.filter (prop_entry_valid buf ds) pes) = 1%nat)
  /\ addProperties 256 ∅ (mkBS buf 0)
     = Ok (foldl (prop_insert buf ds) ∅ (List.filter (prop_entry_valid buf ds) pes))
          (mkBS buf (256 + 24 + 8 * num pl))
  /\ map_size (foldl (prop_insert buf ds) ∅ (List.filter (prop_entry_valid buf ds) pes))
     = 1%nat.
Proof.
  intros buf pl pes ds.
  assert (Hr : X3fPropertyList_read (mkBS buf 256) = Ok pl (mkBS buf (256 + 24)))
    by (vm_compute; reflexivity).
  assert (He : entries_at buf (256 + 24) pes)
    by (vm_compute; repeat split; reflexivity).
  assert (Hs : 256 + 24 + 8 * num pl <= Z.of_nat (length buf)) by zle.
  assert (H1 : length (List.filter (prop_entry_valid buf ds) pes) = 1%nat)
    by (vm_compute; reflexivity).
  split; [repeat split; assumption |].
  destruct (property_entry_out_of_bounds_skipped buf 256 0 ∅ pl pes
              ltac:(zle) Hr eq_refl ltac:(zle) eq_refl ltac:(zle) eq_refl He Hs) as [G1 G2].
  split; [exact G1 | exact (G2 H1)].
Defined.

(** C5. Every directory entry that is processed successfully
    leaves the cursor just after its 12-byte record, however far the section
    decoder seeked. An entry with an unrecognised type tag whose record and
    4-byte sub-section signature (read at its offset, for every entry) are
    readable is a no-op: the walk over it and the following entries is the
    walk over the following entries alone, from the next record. An entry,
    of whatever type, whose record is readable but whose offset leaves no
    4 bytes for the signature makes the walk from it fail with an
    out-of-bounds read; in a parse, an entry of the directory reached after
    the entries before it were processed aborts the whole parse in that
    case, whatever entries follow it. *)
Theorem directory_entry_cursor_restored (n : nat) (dec : X3fDecoder) (bs : ByteStream) :
  (forall dec' bs', parseEntry dec bs = Ok dec' bs' ->
     bs' = mkBS (bs_buf bs) (bs_pos bs + 12))
  /\ (forall dir bs1, X3fDirectoryEntry_read bs = Ok dir bs1 ->
        known_tag (de_type dir) = false ->
        parseEntries (S n) dec bs = parseEntries n dec (mkBS (bs_buf bs) (bs_pos bs + 12)))
  /\ (forall buf p, 0 <= p -> p + 12 <= Z.of_nat (length buf) ->
        Z.of_nat (length buf) < u32_at buf p + 4 ->
        parseEntries (S n) dec (mkBS buf p) = Err OutOfBoundsRead)
  /\ (forall input u b ds bs1 m dec1 p,
        X3fParser_ctor input = Ok u b ->
        let d := u32_at input (u32 (Z.of_nat (length input) - 4)) in
        X3fDirectorySection_read (mkBS input d) = Ok ds bs1 ->
        Z.to_nat (dirNum ds) = (m + S n)%nat ->
        parseEntries m emptyDecoder (mkBS input (d + 12)) = Ok dec1 (mkBS input p) ->
        p + 12 <= Z.of_nat (length input) -> Z.of_nat (length input) < u32_at input p + 4 ->
        parse input = Err OutOfBoundsRead).
Proof.
  split; [|split; [|split]].
  - apply parseEntry_Ok.
  - intros dir bs1 E Hk. cbn [parseEntries].
    step (parseEntry_unknown dec bs dir bs1 E Hk). reflexivity.
  - intros buf p Hp Hs Ho. cbn [parseEntries]. apply bind_Err.
    now apply parseEntry_offset_out.
  - intros input u b ds bs1 m dec1 p Hc d. exact (walk_abort input u b ds bs1 m dec1 p n Hc).
Qed.

Lemma directory_entry_cursor_restored_witness :
  let bs := mkBS (file_junk 256) 296 in
  let dir := mkDirEntry 256 0 X3F_JUNK X3F_SECi in
  let input := file_junk 1000 in
  let ds := mkDirSec X3F_SECd X3F_VERSION_2_0 2 in
  ((X3fDirectoryEntry_read bs = Ok dir (mkBS (file_junk 256) 308)
    /\ known_tag (de_type dir) = false)
   /\ parseEntries 2 emptyDecoder bs
      = parseEntries 1 emptyDecoder (mkBS (bs_buf bs) (bs_pos bs + 12)))
  /\ ((296 + 12 <= Z.of_nat (length input) /\ Z.of_nat (length input) < u32_at input 296 + 4)
      /\ parseEntries 2 emptyDecoder (mkBS input 296) = Err OutOfBoundsRead)
  /\ ((X3fParser_ctor input = Ok tt (mkBS input 40)
       /\ X3fDirectorySection_read
            (mkBS input (u32_at input (u32 (Z.of_nat (length input) - 4))))
          = Ok ds (mkBS input 296))
      /\ parse input = Err OutOfBoundsRead).
Proof.
  intros bs dir input ds.
  assert (E : X3fDirectoryEntry_read bs = Ok dir (mkBS (file_junk 256) 308))
    by (vm_compute; reflexivity).
  assert (Hs : 296 + 12 <= Z.of_nat (length input)) by zle.
  assert (Ho : Z.of_nat (length input) < u32_at input 296 + 4) by zlt.
  assert (Hc : X3fParser_ctor input = Ok tt (mkBS input 40)) by (vm_compute; reflexivity).
  assert (Hd : X3fDirectorySection_read
                 (mkBS input (u32_at input (u32 (Z.of_nat (length input) - 4))))
               = Ok ds (mkBS input 296)) by (vm_compute; reflexivity).
  split; [split; [split; [exact E | reflexivity] |] |].
  - exact (proj1 (proj2 (directory_entry_cursor_restored 1 emptyDecoder bs)) dir _ E eq_refl).
  - split.
    + split; [split; assumption |].
      exact (proj1 (proj2 (proj2 (directory_entry_cursor_restored 1 emptyDecoder bs)))
               input 296 ltac:(lia) Hs Ho).
    + split; [split; assumption |].
      exact (proj2 (proj2 (proj2 (directory_entry_cursor_restored 1 emptyDecoder bs)))
               input tt _ ds _ 0%nat emptyDecoder 296 Hc Hd eq_refl eq_refl Hs Ho).
Defined.

(** C5 counterexample: the unknown "JUNK" entry comes before a valid image
    entry. With its offset inside the file the image is decoded; with its
    offset past the end of the file the signature read fails and the whole
    parse fails, so the image entry is never decoded. *)
Lemma unknown_entry_offset_aborts_parse :
  parse (file_junk 1000) = Err OutOfBoundsRead
  /\ match parse (file_junk 256) with
     | Ok d _ => length (images d) = 1%nat
     | Err _ => False
     end.
Proof. vm_compute. split; reflexivity. Qed.

(** C6. A high surrogate followed by a low surrogate is
    converted as one code point in [0x10000, 0x110000), written as 4 UTF-8
    bytes; and when the units available to [getString] (up to the first
    zero unit, or up to the end of the buffer) end with a high surrogate,
    the conversion fails and [getString] returns the empty string. *)
Theorem utf16_surrogate_handling (hi lo room : Z) (rest : list Z)
    (buf : list Z) (q : Z) (us tail : list Z) :
  is_high hi = true ->
  (is_low lo = true -> 4 <= room ->
   0x10000 <= combine_surrogates hi lo < 0x110000
   /\ length (encode_utf8 (combine_surrogates hi lo) 4) = 4%nat
   /\ ConvertUTF16toUTF8 (hi :: lo :: rest) room
      = (fst (ConvertUTF16toUTF8 rest (room - 4)),
         encode_utf8 (combine_surrogates hi lo) 4
         ++ snd (ConvertUTF16toUTF8 rest (room - 4))))
  /\ (0 <= q <= Z.of_nat (length buf) -> Z.of_nat (length buf) < 2 ^ 32 ->
      units_at buf q = us ++ hi :: tail -> Forall (fun u => u <> 0) us ->
      (tail = [] \/ exists r, tail = 0 :: r) ->
      string_at buf q = EmptyString).
Proof.
  intros Hhi. split.
  - intros Hlo Hroom.
    pose proof (combine_surrogates_range hi lo Hhi Hlo) as Hc.
    split; [exact Hc|]. split; [reflexivity|].
    cbn [ConvertUTF16toUTF8]. rewrite Hhi, Hlo. unfold emit.
    assert (Hb : bytesToWrite (combine_surrogates hi lo) = 4).
    { unfold bytesToWrite.
      rewrite (Zltb_false _ 0x80), (Zltb_false _ 0x800), (Zltb_false _ 0x10000),
        (Zltb_true _ 0x110000) by lia. reflexivity. }
    rewrite Hb, (Zltb_false room 4 Hroom), (Zltb_true _ 0x110000) by lia.
    destruct (ConvertUTF16toUTF8 rest (room - 4)). reflexivity.
  - intros Hq Hs Hu Hus Ht. rewrite string_at_all_units by lia. rewrite Hu.
    unfold decode_units. rewrite scan_nul_app by exact Hus.
    assert (Hhi0 : (hi =? 0) = false).
    { apply Z.eqb_neq. unfold is_high, UNI_SUR_HIGH_START in Hhi.
      apply andb_prop in Hhi as [H1 _]. apply Z.leb_le in H1. lia. }
    destruct Ht as [-> | [r ->]].
    + cbn [scan_nul]. now rewrite Hhi0.
    + cbn [scan_nul]. rewrite Hhi0. cbn [Z.eqb].
      replace (S (0 + length us)) with (length us + 1)%nat by lia.
      destruct (length us + 1 =? 0)%nat eqn:E0; [apply Nat.eqb_eq in E0; lia|].
      rewrite take_app_add. cbn [take].
      pose proof (convert_ends_high hi Hhi us
                    (Z.of_nat (S (length us + 1)) * 4 - 1)) as Hf.
      destruct (ConvertUTF16toUTF8 (us ++ [hi]) _) as [ok out].
      cbn in Hf. now rewrite Hf.
Qed.

Lemma utf16_surrogate_handling_witness :
  let buf := units_bytes [0x41; 0xD83D; 0] in
  (is_high 0xD83D = true /\ is_low 0xDE00 = true
   /\ units_at buf 0 = [0x41] ++ 0xD83D :: [0])
  /\ ConvertUTF16toUTF8 [0xD83D; 0xDE00] 4
     = (true, encode_utf8 (combine_surrogates 0xD83D 0xDE00) 4 ++ [])
  /\ string_at buf 0 = EmptyString.
Proof.
  intros buf.
  assert (Hu : units_at buf 0 = [0x41] ++ 0xD83D :: [0]) by (vm_compute; reflexivity).
  split; [split; [reflexivity | split; [reflexivity | exact Hu]] |].
  destruct (utf16_surrogate_handling 0xD83D 0xDE00 4 [] buf 0 [0x41] [0] eq_refl)
    as [H1 H2].
  split.
  - exact (proj2 (proj2 (H1 eq_refl ltac:(lia)))).
  - apply H2; [split; zle | zlt | exact Hu | repeat constructor; lia |].
    right. exists []. reflexivity.
Defined.

(** C7. A buffer shorter than 232 bytes is rejected with
    [FileTooSmall] by the size check that precedes every read, whatever its
    content: the constructor of [X3fParser] and the whole parse fail. *)
Theorem file_too_small_rejected (input : list Z) :
  Z.of_nat (length input) < 232 ->
  X3fParser_ctor input = Err FileTooSmall /\ parse input = Err FileTooSmall.
Proof.
  intros H.
  assert (Hc : X3fParser_ctor input = Err FileTooSmall).
  { unfold X3fParser_ctor. now rewrite (Zltb_true _ (104 + 128)) by lia. }
  split; [exact Hc|]. unfold parse. now rewrite Hc.
Qed.

Lemma file_too_small_rejected_witness :
  Z.of_nat (length (zeros 231)) < 232
  /\ X3fParser_ctor (zeros 231) = Err FileTooSmall /\ parse (zeros 231) = Err FileTooSmall.
Proof.
  split; [zlt|]. apply file_too_small_rejected. zlt.
Defined.

Lemma dirsec_after_8 buf p :
  0 <= p -> p + 8 <= Z.of_nat (length buf) ->
  X3fDirectorySection_read (mkBS buf p)
  = (if negb (u32_at buf p =? X3F_SECd) && negb (u32_at buf p =? X3F_SECc)
     then throw UnknownDirectorySignature else
     if u32_at buf (p + 4) <? X3F_VERSION_2_0 then throw UnsupportedDirectoryVersion else
     n ← getU32;
     if n <? 1 then throw EmptyDirectory else
     mret (mkDirSec (u32_at buf p) (u32_at buf (p + 4)) n)) (mkBS buf (p + 8)).
Proof.
  intros Hp Hs. unfold X3fDirectorySection_read.
  step (getU32_at buf p Hp ltac:(lia)).
  step (getU32_at buf (p + 4) ltac:(lia) ltac:(lia)).
  now replace (p + 4 + 4) with (p + 8) by lia.
Qed.

Lemma sig_ok_negb id :
  (id = X3F_SECd \/ id = X3F_SECc) ->
  negb (id =? X3F_SECd) && negb (id =? X3F_SECc) = false.
Proof. intros [-> | ->]; reflexivity. Qed.

(** C8. Decoding the directory section header reads the
    signature and the version, checks them, then reads the entry count and
    checks it. It succeeds exactly when the 12 header bytes lie in the
    buffer, the signature is "SECd" or "SECc", the version is >= 2.0 and the
    count is >= 1; a bad signature fails with [UnknownDirectorySignature], a
    version < 2.0 with [UnsupportedDirectoryVersion], a count < 1 with
    [EmptyDirectory]. The signature and the version are both read before
    either is checked, so fewer than 8 header bytes fail with the reader's
    [OutOfBoundsRead] whatever the signature; the count is read only once
    both checks pass, so with 8 to 11 bytes a bad signature or version still
    gives its own error, and otherwise the read fails with
    [OutOfBoundsRead]. *)
Theorem directory_header_checks (buf : list Z) (p : Z) :
  0 <= p ->
  ((u32_at buf p = X3F_SECd \/ u32_at buf p = X3F_SECc) ->
   X3F_VERSION_2_0 <= u32_at buf (p + 4) -> 1 <= u32_at buf (p + 8) ->
   p + 12 <= Z.of_nat (length buf) ->
   X3fDirectorySection_read (mkBS buf p)
   = Ok (mkDirSec (u32_at buf p) (u32_at buf (p + 4)) (u32_at buf (p + 8))) (mkBS buf (p + 12)))
  /\ (u32_at buf p <> X3F_SECd -> u32_at buf p <> X3F_SECc ->
      p + 8 <= Z.of_nat (length buf) ->
      X3fDirectorySection_read (mkBS buf p) = Err UnknownDirectorySignature)
  /\ ((u32_at buf p = X3F_SECd \/ u32_at buf p = X3F_SECc) ->
      u32_at buf (p + 4) < X3F_VERSION_2_0 -> p + 8 <= Z.of_nat (length buf) ->
      X3fDirectorySection_read (mkBS buf p) = Err UnsupportedDirectoryVersion)
  /\ ((u32_at buf p = X3F_SECd \/ u32_at buf p = X3F_SECc) ->
      X3F_VERSION_2_0 <= u32_at buf (p + 4) -> u32_at buf (p + 8) < 1 ->
      p + 12 <= Z.of_nat (length buf) ->
      X3fDirectorySection_read (mkBS buf p) = Err EmptyDirectory)
  /\ (Z.of_nat (length buf) < p + 8 ->
      X3fDirectorySection_read (mkBS buf p) = Err OutOfBoundsRead)
  /\ ((u32_at buf p = X3F_SECd \/ u32_at buf p = X3F_SECc) ->
      X3F_VERSION_2_0 <= u32_at buf (p + 4) ->
      p + 8 <= Z.of_nat (length buf) < p + 12 ->
      X3fDirectorySection_read (mkBS buf p) = Err OutOfBoundsRead).
Proof.
  intros Hp. repeat split.
  - intros Hid Hv Hn Hs. rewrite dirsec_after_8 by lia.
    rewrite (sig_ok_negb _ Hid), (Zltb_false _ _ Hv). cbv iota.
    step (getU32_at buf (p + 8) ltac:(lia) ltac:(lia)).
    rewrite (Zltb_false _ _ Hn). now replace (p + 8 + 4) with (p + 12) by lia.
  - intros H1 H2 Hs. rewrite dirsec_after_8 by lia.
    rewrite (proj2 (Z.eqb_neq _ _) H1), (proj2 (Z.eqb_neq _ _) H2). reflexivity.
  - intros Hid Hv Hs. rewrite dirsec_after_8 by lia.
    rewrite (sig_ok_negb _ Hid), (Zltb_true _ _ Hv). reflexivity.
  - intros Hid Hv Hn Hs. rewrite dirsec_after_8 by lia.
    rewrite (sig_ok_negb _ Hid), (Zltb_false _ _ Hv). cbv iota.
    step (getU32_at buf (p + 8) ltac:(lia) ltac:(lia)).
    rewrite (Zltb_true _ _ Hn). reflexivity.
  - intros H8. unfold X3fDirectorySection_read.
    destruct (Z_lt_le_dec (Z.of_nat (length buf)) (p + 4)) as [H4|H4].
    + apply bind_Err. apply getU32_out. lia.
    + step (getU32_at buf p Hp H4). apply bind_Err. apply getU32_out. lia.
  - intros Hid Hv Hs. rewrite dirsec_after_8 by lia.
    rewrite (sig_ok_negb _ Hid), (Zltb_false _ _ Hv). cbv iota.
    apply bind_Err. apply getU32_out. lia.
Qed.

Lemma directory_header_checks_witness :
  let buf := le32 X3F_SECd ++ le32 X3F_VERSION_2_0 ++ le32 3 in
  let cut := le32 X3F_SECd ++ le32 X3F_VERSION_2_0 in
  let bad := le32 0 ++ le32 X3F_VERSION_2_0 in
  X3fDirectorySection_read (mkBS buf 0)
  = Ok (mkDirSec (u32_at buf 0) (u32_at buf (0 + 4)) (u32_at buf (0 + 8))) (mkBS buf (0 + 12))
  /\ X3fDirectorySection_read (mkBS (le32 0) 0) = Err OutOfBoundsRead
  /\ X3fDirectorySection_read (mkBS cut 0) = Err OutOfBoundsRead
  /\ X3fDirectorySection_read (mkBS bad 0) = Err UnknownDirectorySignature.
Proof.
  intros buf cut bad. split; [|split; [|split]].
  - apply (proj1 (directory_header_checks buf 0 ltac:(lia)));
      [left; reflexivity | zle | zle | zle].
  - apply (proj1 (proj2 (proj2 (proj2 (proj2 (directory_header_checks (le32 0) 0 ltac:(lia)))))));
      zlt.
  - apply (proj2 (proj2 (proj2 (proj2 (proj2 (directory_header_checks cut 0 ltac:(lia)))))));
      [left; reflexivity | zle | split; [zle | zlt]].
  - apply (proj1 (proj2 (directory_header_checks bad 0 ltac:(lia))));
      [vm_compute; discriminate | vm_compute; discriminate | zle].
Defined.

(** C8 counterexample: with a matching signature and version 2.0 but no
    count, and with a wrong signature and no version, decoding fails with
    the reader's [OutOfBoundsRead], which is none of the three named
    failures, and entry iteration does not proceed. *)
Lemma directory_header_truncated :
  X3fDirectorySection_read (mkBS (le32 X3F_SECd ++ le32 X3F_VERSION_2_0) 0)
  = Err OutOfBoundsRead
  /\ X3fDirectorySection_read (mkBS (le32 0) 0) = Err OutOfBoundsRead.
Proof. split; reflexivity. Qed.

Lemma prop_addr_wrap ds k : u32 ((k + 2 ^ 31) * 2 + ds) = u32 (k * 2 + ds).
Proof.
  unfold u32. replace ((k + 2 ^ 31) * 2 + ds) with (k * 2 + ds + 1 * 2 ^ 32) by lia.
  apply Z_mod_plus_full.
Qed.

(** C9. The property string offsets are computed modulo 2^32:
    a name or value offset [k + 2^31] behaves exactly as [k], so such an
    entry is validated and decoded at the wrapped address; for example a
    file whose only entry has name offset 0x80000000 yields the property
    "Make" = "Example" read at name offset 0. *)
Theorem property_offset_wraps (ds k v : Z) (props : Props) (bs : ByteStream) :
  addProperty ds (mkPropEntry (k + 2 ^ 31) v) props bs
  = addProperty ds (mkPropEntry k v) props bs
  /\ addProperty ds (mkPropEntry k (v + 2 ^ 31)) props bs
     = addProperty ds (mkPropEntry k v) props bs
  /\ match parse (file_prop 0 1 [(0x80000000, 5)] chars_make_example) with
     | Ok d _ => properties d = {[ "Make"%string := "Example"%string ]}
     | Err _ => False
     end.
Proof.
  split; [|split].
  - unfold addProperty. cbn [key_off val_off]. now rewrite prop_addr_wrap.
  - unfold addProperty. cbn [key_off val_off]. now rewrite prop_addr_wrap.
  - vm_compute. reflexivity.
Qed.

(** C10. An entry whose offsets are valid but whose name
    decodes to the empty string (a failed conversion, or a name starting
    with a zero unit) is inserted under the empty key, replacing any value
    stored there. *)
Theorem empty_name_property_inserted (buf : list Z) (p ds : Z)
    (pe : X3fPropertyEntry) (props : Props) :
  0 <= p <= Z.of_nat (length buf) -> prop_entry_valid buf ds pe = true ->
  (string_at buf (prop_addr ds (key_off pe)) = EmptyString ->
   addProperty ds pe props (mkBS buf p)
   = Ok (<[EmptyString := string_at buf (prop_addr ds (val_off pe))]> props) (mkBS buf p))
  /\ (head (units_at buf (prop_addr ds (key_off pe))) = Some 0 ->
      string_at buf (prop_addr ds (key_off pe)) = EmptyString).
Proof.
  intros Hp Hv. split.
  - intros Hk. rewrite addProperty_at by exact Hp. unfold prop_insert.
    now rewrite Hv, Hk.
  - intros Hh. unfold prop_entry_valid in Hv.
    apply andb_prop in Hv as [Ha _]. apply andb_prop in Ha as [Ha1 Ha2].
    apply Z.leb_le in Ha1, Ha2.
    rewrite string_at_units by lia.
    destruct (units_at buf (prop_addr ds (key_off pe))) as [|u r]; [discriminate|].
    injection Hh as ->.
    destruct (Z.to_nat _); reflexivity.
Qed.

Lemma empty_name_property_inserted_witness :
  let buf := file_empty_name in
  let pe := mkPropEntry 4 5 in
  (prop_entry_valid buf 288 pe = true
   /\ head (units_at buf (prop_addr 288 (key_off pe))) = Some 0)
  /\ addProperty 288 pe ∅ (mkBS buf 288)
     = Ok (<[EmptyString := string_at buf (prop_addr 288 (val_off pe))]> ∅) (mkBS buf 288).
Proof.
  intros buf pe.
  assert (Hv : prop_entry_valid buf 288 pe = true) by (vm_compute; reflexivity).
  assert (Hh : head (units_at buf (prop_addr 288 (key_off pe))) = Some 0)
    by (vm_compute; reflexivity).
  split; [split; assumption|].
  destruct (empty_name_property_inserted buf 288 288 pe ∅ ltac:(split; zle) Hv) as [H1 H2].
  exact (H1 (H2 Hh)).
Defined.

(** * Further properties of the parser *)

(** ** Helper lemmas

    The byte-level behaviour of the UTF-8 encoder, a reading-length
    discipline [reads] for the fixed-size records, and the inversion of
    the readers used by the directory walk. *)

Lemma Z_range_check (f : Z -> bool) (n : nat) :
  forallb f (map Z.of_nat (seq 0 n)) = true -> forall y, 0 <= y < Z.of_nat n -> f y = true.
Proof.
  intros H y Hy. rewrite forallb_forall in H. apply H.
  apply in_map_iff. exists (Z.to_nat y). split; [lia|]. apply in_seq. lia.
Qed.

Lemma cont_byte x : 0 <= x -> Z.land (Z.lor x byteMark) byteMask = 0x80 + x mod 64.
Proof.
  intros Hx. unfold byteMark, byteMask.
  rewrite Z.add_nocarry_lxor.
  2:{ change 64 with (2 ^ 6). rewrite <- Z.land_ones by lia.
      rewrite Z.land_comm, <- Z.land_assoc.
      replace (Z.land (Z.ones 6) 128) with 0 by reflexivity. apply Z.land_0_r. }
  apply Z.bits_inj'. intros i Hi.
  rewrite Z.land_spec, Z.lor_spec, Z.lxor_spec.
  change 64 with (2 ^ 6).
  destruct (Z.lt_ge_cases i 6) as [Hl|Hl].
  - rewrite Z.mod_pow2_bits_low by lia.
    generalize (Z.testbit x i); intros b.
    assert (i = 0 \/ i = 1 \/ i = 2 \/ i = 3 \/ i = 4 \/ i = 5) as Hc by lia.
    destruct Hc as [-> | [-> | [-> | [-> | [-> | ->]]]]]; cbn; destruct b; reflexivity.
  - rewrite Z.mod_pow2_bits_high by lia.
    destruct (Z.lt_ge_cases i 8) as [Hh|Hh].
    + generalize (Z.testbit x i); intros b.
      assert (i = 6 \/ i = 7) as Hc by lia.
      destruct Hc as [-> | ->]; cbn; destruct b; reflexivity.
    + rewrite (Z.bits_above_log2 128 i), (Z.bits_above_log2 191 i); try (cbn; lia).
Qed.

Lemma encode_utf8_std ch :
  0 <= ch < 0x110000 -> encode_utf8 ch (bytesToWrite ch) = utf8_bytes ch.
Proof.
  intros Hch. unfold bytesToWrite, utf8_bytes, encode_utf8.
  destruct (ch <? 0x80) eqn:E1; [|destruct (ch <? 0x800) eqn:E2;
    [|destruct (ch <? 0x10000) eqn:E3; [|destruct (ch <? 0x110000) eqn:E4]]];
    rewrite ?Z.ltb_lt, ?Z.ltb_ge in *; try lia.
  - change (Z.to_nat 1) with 1%nat; cbn [Nat.sub enc_tail nth firstByteMark]. f_equal.
    assert (H := Z_range_check (fun y => Z.land (Z.lor y 0) 255 =? y) 128 eq_refl).
    apply Z.eqb_eq, H. lia.
  - change (Z.to_nat 2) with 2%nat; cbn [Nat.sub enc_tail nth firstByteMark app].
    rewrite cont_byte by lia. rewrite Z.shiftr_div_pow2 by lia.
    change (2 ^ 6) with 64. f_equal.
    assert (H := Z_range_check (fun y => Z.land (Z.lor y 0xC0) 255 =? 0xC0 + y) 32 eq_refl).
    apply Z.eqb_eq, H. split; [apply Z.div_pos; lia|]. apply Z.div_lt_upper_bound; lia.
  - change (Z.to_nat 3) with 3%nat; cbn [Nat.sub enc_tail nth firstByteMark app].
    rewrite !Z.shiftr_shiftr by lia. rewrite !Z.shiftr_div_pow2 by lia.
    rewrite !cont_byte by (first [lia | apply Z.div_pos; lia]).
    change (2 ^ (6 + 6)) with 4096. change (2 ^ 6) with 64. f_equal.
    assert (H := Z_range_check (fun y => Z.land (Z.lor y 0xE0) 255 =? 0xE0 + y) 16 eq_refl).
    apply Z.eqb_eq, H. split; [apply Z.div_pos; lia|]. apply Z.div_lt_upper_bound; lia.
  - change (Z.to_nat 4) with 4%nat; cbn [Nat.sub enc_tail nth firstByteMark app].
    rewrite !Z.shiftr_shiftr by lia. rewrite !Z.shiftr_div_pow2 by lia.
    rewrite !cont_byte by (first [lia | apply Z.div_pos; lia]).
    change (2 ^ (6 + 6 + 6)) with 262144. change (2 ^ (6 + 6)) with 4096.
    change (2 ^ 6) with 64. f_equal.
    assert (H := Z_range_check (fun y => Z.land (Z.lor y 0xF0) 255 =? 0xF0 + y) 5 eq_refl).
    apply Z.eqb_eq, H. split; [apply Z.div_pos; lia|]. apply Z.div_lt_upper_bound; lia.
Qed.

Lemma utf8_bytes_length c :
  0 <= c < 0x110000 -> Z.of_nat (length (utf8_bytes c)) = bytesToWrite c.
Proof.
  intros Hc. unfold utf8_bytes, bytesToWrite.
  destruct (c <? 0x80); [reflexivity|]. destruct (c <? 0x800); [reflexivity|].
  destruct (c <? 0x10000); [reflexivity|].
  rewrite (Zltb_true c 0x110000) by lia. reflexivity.
Qed.

Lemma emit_std ch room k :
  0 <= ch < 0x110000 -> bytesToWrite ch <= room ->
  emit ch room k =
  let '(ok, out) := k (room - bytesToWrite ch) in (ok, utf8_bytes ch ++ out).
Proof.
  intros Hch Hr. unfold emit.
  rewrite (Zltb_false room (bytesToWrite ch)) by lia.
  rewrite (Zltb_true ch 0x110000) by lia. rewrite encode_utf8_std by lia.
  reflexivity.
Qed.

Lemma is_scalar_spec c :
  is_scalar c = true <-> 0 <= c < 0x110000 /\ ~ (0xD800 <= c <= 0xDFFF).
Proof.
  unfold is_scalar. rewrite !andb_true_iff, negb_true_iff, Z.leb_le, Z.ltb_lt.
  split.
  - intros [[H1 H2] H3]. split; [lia|]. intros [H4 H5].
    rewrite (proj2 (Z.leb_le _ _) H4), (proj2 (Z.leb_le _ _) H5) in H3. discriminate.
  - intros [H1 H2]. split; [lia|].
    destruct (0xD800 <=? c) eqn:E1, (c <=? 0xDFFF) eqn:E2; try reflexivity.
    apply Z.leb_le in E1, E2. lia.
Qed.

Lemma convert_utf16_encode cps room :
  Forall (fun c => is_scalar c = true) cps ->
  Z.of_nat (length (flat_map utf8_bytes cps)) <= room ->
  ConvertUTF16toUTF8 (utf16_encode cps) room = (true, flat_map utf8_bytes cps).
Proof.
  revert room. induction cps as [|c cps IH]; intros room Hs Hr; [reflexivity|].
  inversion Hs as [|? ? Hc Hs']; subst. apply is_scalar_spec in Hc as [Hc Hns].
  cbn [flat_map] in Hr |- *. rewrite length_app, Nat2Z.inj_add in Hr.
  rewrite utf8_bytes_length in Hr by lia.
  unfold utf16_encode. cbn [flat_map]. fold (utf16_encode cps).
  unfold utf16_encode_cp. destruct (c <? 0x10000) eqn:Eb.
  - apply Z.ltb_lt in Eb. cbn [app ConvertUTF16toUTF8].
    replace (is_high c) with false.
    2:{ unfold is_high, UNI_SUR_HIGH_START, UNI_SUR_HIGH_END.
        destruct (0xD800 <=? c) eqn:E1, (c <=? 0xDBFF) eqn:E2; try reflexivity.
        apply Z.leb_le in E1, E2. lia. }
    rewrite emit_std by lia. rewrite IH by (auto; lia). reflexivity.
  - apply Z.ltb_ge in Eb. cbn [app ConvertUTF16toUTF8].
    set (hi := 0xD800 + (c - 0x10000) / 1024).
    set (lo := 0xDC00 + (c - 0x10000) mod 1024).
    assert (Hq : 0 <= (c - 0x10000) / 1024 < 1024).
    { split; [apply Z.div_pos; lia|]. apply Z.div_lt_upper_bound; lia. }
    pose proof (Z.mod_pos_bound (c - 0x10000) 1024 ltac:(lia)).
    replace (is_high hi) with true.
    2:{ unfold is_high, UNI_SUR_HIGH_START, UNI_SUR_HIGH_END, hi.
        symmetry. apply andb_true_intro; split; apply Z.leb_le; lia. }
    replace (is_low lo) with true.
    2:{ unfold is_low, UNI_SUR_LOW_START, UNI_SUR_LOW_END, lo.
        symmetry. apply andb_true_intro; split; apply Z.leb_le; lia. }
    replace (combine_surrogates hi lo) with c.
    2:{ unfold combine_surrogates, hi, lo, UNI_SUR_HIGH_START, UNI_SUR_LOW_START,
          halfShift, halfBase. rewrite Z.shiftl_mul_pow2 by lia.
        pose proof (Z.div_mod (c - 0x10000) 1024 ltac:(lia)). lia. }
    rewrite emit_std by lia. rewrite IH by (auto; lia). reflexivity.
Qed.



Lemma bytesToWrite_surrogate u :
  UNI_SUR_HIGH_START <= u <= UNI_SUR_LOW_END -> bytesToWrite u = 3.
Proof.
  unfold UNI_SUR_HIGH_START, UNI_SUR_LOW_END, bytesToWrite. intros Hu.
  rewrite (Zltb_false u 0x80), (Zltb_false u 0x800), (Zltb_true u 0x10000) by lia.
  reflexivity.
Qed.

Lemma scan_nul_none us i :
  Forall (fun u => u <> 0) us -> snd (scan_nul us i) = None.
Proof.
  intros H. rewrite <- (app_nil_r us). rewrite scan_nul_app by exact H. reflexivity.
Qed.

Lemma reads_bind {A B} (m : M A) (f : A -> M B) k k' :
  reads m k -> (forall a, reads (f a) k') -> 0 <= k -> 0 <= k' -> reads (m ≫= f) (k + k').
Proof.
  intros Hm Hf Hk Hk' buf p Hp. split.
  - intros Hs. destruct (proj1 (Hm buf p Hp) ltac:(lia)) as [a Ha].
    destruct (proj1 (Hf a buf (p + k) ltac:(lia)) ltac:(lia)) as [b Hb].
    exists b. rewrite (bind_Ok _ _ _ _ _ Ha), Hb. now rewrite Z.add_assoc.
  - intros Hs. destruct (Z_le_gt_dec (p + k) (Z.of_nat (length buf))) as [Hl|Hl].
    + destruct (proj1 (Hm buf p Hp) Hl) as [a Ha]. rewrite (bind_Ok _ _ _ _ _ Ha).
      apply (Hf a buf (p + k) ltac:(lia)). lia.
    + apply bind_Err. apply (Hm buf p Hp). lia.
Qed.

Lemma reads_ret {A} (a : A) : reads (mret (M := M) a) 0.
Proof.
  intros buf p Hp. split; [|lia]. intros _. exists a. now rewrite Z.add_0_r.
Qed.

Lemma reads_eq {A} (m : M A) k k' : reads m k -> k = k' -> reads m k'.
Proof. now intros H ->. Qed.

Lemma reads_getU32 : reads getU32 4.
Proof.
  intros buf p Hp. split.
  - intros Hs. exists (u32_at buf p). apply getU32_at; lia.
  - intros Hs. apply getU32_out. lia.
Qed.

Lemma reads_getFloat : reads getFloat 4.
Proof. exact reads_getU32. Qed.

Lemma reads_getByte : reads getByte 1.
Proof.
  intros buf p Hp. split.
  - intros Hs. unfold getByte. rewrite getData_at by lia. eauto.
  - intros Hs. unfold getByte. now rewrite getData_out by lia.
Qed.

Lemma reads_repeatM {A} n (m : M A) k :
  reads m k -> 0 <= k -> reads (repeatM n m) (k * Z.of_nat n).
Proof.
  intros Hm Hk. induction n as [|n IH].
  - cbn [repeatM]. rewrite Z.mul_0_r. apply reads_ret.
  - cbn [repeatM]. eapply reads_eq.
    + apply (reads_bind _ _ k (k * Z.of_nat n + 0)); [exact Hm| |lia|nia].
      intros a. apply reads_bind; [exact IH| |nia|lia]. intros; apply reads_ret.
    + lia.
Qed.

Ltac reads_tac :=
  cbv beta iota zeta;
  match goal with
  | |- reads (_ ≫= _) _ =>
      eapply reads_bind; [reads_tac | intros ?; reads_tac | ..]
  | |- reads (mret _) _ => apply reads_ret
  | |- reads getU32 _ => apply reads_getU32
  | |- reads getByte _ => apply reads_getByte
  | |- reads getFloat _ => apply reads_getFloat
  | |- reads (repeatM _ _) _ => apply reads_repeatM; [reads_tac | ..]
  end.

Ltac fin_record :=
  rewrite ret_Ok;
  match goal with
  | |- Ok _ (mkBS _ ?q) = Ok _ (mkBS _ ?q') => replace q with q' by lia
  end;
  f_equal; f_equal; f_equal; lia.

Ltac step_u32 :=
  match goal with
  | |- context [ (getU32 ≫= ?k) (mkBS ?b ?q) ] =>
      rewrite (bind_Ok getU32 k (mkBS b q) _ _ (getU32_at b q ltac:(lia) ltac:(lia)));
      cbv beta
  end.

Lemma property_records buf p :
  0 <= p <= Z.of_nat (length buf) ->
  (p + 24 <= Z.of_nat (length buf) ->
   X3fPropertyList_read (mkBS buf p)
   = Ok (mkPropList (u32_at buf p) (u32_at buf (p + 4)) (u32_at buf (p + 8))
                    (u32_at buf (p + 12)) (u32_at buf (p + 16)) (u32_at buf (p + 20)))
        (mkBS buf (p + 24)))
  /\ (Z.of_nat (length buf) < p + 24 -> X3fPropertyList_read (mkBS buf p) = Err OutOfBoundsRead)
  /\ (p + 8 <= Z.of_nat (length buf) ->
      X3fPropertyEntry_read (mkBS buf p)
      = Ok (mkPropEntry (u32_at buf p) (u32_at buf (p + 4))) (mkBS buf (p + 8)))
  /\ (Z.of_nat (length buf) < p + 8 -> X3fPropertyEntry_read (mkBS buf p) = Err OutOfBoundsRead).
Proof.
  intros Hp. split; [|split; [|split]].
  - intros Hs. unfold X3fPropertyList_read. do 6 step_u32.
    fin_record.
  - intros Hs. assert (H : reads X3fPropertyList_read 24).
    { unfold X3fPropertyList_read. eapply reads_eq; [reads_tac|]; lia. }
    exact (proj2 (H buf p Hp) Hs).
  - intros Hs. unfold X3fPropertyEntry_read. do 2 step_u32.
    fin_record.
  - intros Hs. assert (H : reads X3fPropertyEntry_read 8).
    { unfold X3fPropertyEntry_read. eapply reads_eq; [reads_tac|]; lia. }
    exact (proj2 (H buf p Hp) Hs).
Qed.

Lemma header_read_size buf :
  8 <= Z.of_nat (length buf) -> u32_at buf 0 = X3F_FOVb ->
  (header_size (u32_at buf 4) <= Z.of_nat (length buf) ->
   exists h, X3fHeader_read (mkBS buf 0) = Ok h (mkBS buf (header_size (u32_at buf 4))))
  /\ (Z.of_nat (length buf) < header_size (u32_at buf 4) ->
      X3fHeader_read (mkBS buf 0) = Err OutOfBoundsRead).
Proof.
  intros Hs Hid. unfold X3fHeader_read.
  step (getU32_at buf 0 ltac:(lia) ltac:(lia)).
  step (getU32_at buf (0 + 4) ltac:(lia) ltac:(lia)).
  rewrite Hid, Zeqb_refl'. cbn [negb].
  change (u32_at buf (0 + 4)) with (u32_at buf 4). change (0 + 4 + 4) with 8.
  set (v := u32_at buf 4).
  match goal with |- context [ ?R (mkBS buf 8) ] =>
    assert (HR : reads R (header_size v - 8)) end.
  { unfold header_size.
    destruct (v <? X3F_VERSION_4_0);
      [destruct (v >=? X3F_VERSION_2_1);
        [destruct (v >=? X3F_VERSION_3_0); destruct (v >=? X3F_VERSION_2_3)|]|];
      eapply reads_eq; try reads_tac; unfold SIZE_UNIQUE_IDENTIFIER, SIZE_WHITE_BALANCE,
        NUM_EXT_DATA_3_0, NUM_EXT_DATA_2_1; cbn -[Z.add Z.mul]; lia. }
  assert (H8 : 0 <= 8 <= Z.of_nat (length buf)) by lia.
  destruct (HR buf 8 H8) as [Hok Herr]. split.
  - intros Hh. destruct (Hok ltac:(lia)) as [h Eh]. exists h. rewrite Eh. do 2 f_equal. lia.
  - intros Hh. apply Herr. lia.
Qed.

Lemma cstring_app_0 l : cstring (l ++ [0]) = cstring l.
Proof. induction l as [|b l IH]; [reflexivity|]. cbn. now rewrite IH. Qed.

Lemma cstring_length l : (length (cstring l) <= length l)%nat.
Proof. induction l as [|b l IH]; [cbn; lia|]. cbn. destruct (b =? 0); cbn; lia. Qed.

Lemma bytes_to_string_length l : String.length (bytes_to_string l) = length l.
Proof. induction l as [|b l IH]; [reflexivity|]. cbn. now rewrite IH. Qed.

Lemma addProperty_loop_reads n ds props : reads (addProperty_loop n ds props) (8 * Z.of_nat n).
Proof.
  revert props. induction n as [|n IH]; intros props.
  - apply reads_ret.
  - cbn [addProperty_loop]. eapply reads_eq.
    + apply (reads_bind _ _ 8 (0 + 8 * Z.of_nat n)); [| |lia|lia].
      * unfold X3fPropertyEntry_read. eapply reads_eq; [reads_tac|]; lia.
      * intros pe. apply reads_bind; [|intros props'; apply IH|lia|lia].
        intros buf p Hp. split; [|lia]. intros _.
        rewrite Z.add_0_r. eexists. apply addProperty_at. lia.
    + lia.
Qed.

Lemma addProperty_dom ds pe props bs props' bs' :
  addProperty ds pe props bs = Ok props' bs' ->
  forall k, is_Some (props !! k) -> is_Some (props' !! k).
Proof.
  unfold addProperty. intros H.
  inv_bind H. inv_bind H. inv_bind H. inv_bind H. inv_bind H.
  cbv [mret M_ret] in H. injection H as <- _.
  destruct (a0 && a1).
  - inv_bind E2. inv_bind E2. inv_bind E2. inv_bind E2. cbv [mret M_ret] in E2. injection E2 as <- _.
    intros k Hk. destruct (decide (k = a5)) as [->|Hne].
    + rewrite lookup_insert, decide_True by reflexivity. now eexists.
    + rewrite lookup_insert_ne by congruence. exact Hk.
  - cbv [mret M_ret] in E2. injection E2 as <- _. auto.
Qed.

Lemma addProperty_loop_dom n ds props bs props' bs' :
  addProperty_loop n ds props bs = Ok props' bs' ->
  forall k, is_Some (props !! k) -> is_Some (props' !! k).
Proof.
  revert props bs. induction n as [|n IH]; intros props bs H k Hk.
  - cbv [mret M_ret] in H. injection H as <- _. exact Hk.
  - cbn [addProperty_loop] in H. inv_bind H. inv_bind H.
    exact (IH _ _ H k (addProperty_dom _ _ _ _ _ _ E0 k Hk)).
Qed.

Lemma addProperties_dom off props bs props' bs' :
  addProperties off props bs = Ok props' bs' ->
  forall k, is_Some (props !! k) -> is_Some (props' !! k).
Proof.
  unfold addProperties. intros H. inv_bind H. inv_bind H.
  destruct (negb (pl_id a0 =? X3F_SECp)); [discriminate|].
  destruct (pl_version a0 <? X3F_VERSION_2_0); [discriminate|].
  destruct (num a0 <? 1); [cbv [mret M_ret] in H; injection H as <- _; auto|].
  destruct (negb (format a0 =? 0)); [discriminate|].
  destruct (1000 <? num a0); [discriminate|].
  inv_bind H. exact (addProperty_loop_dom _ _ _ _ _ _ H).
Qed.

Lemma dec_le_refl d : dec_le d d.
Proof. split; [reflexivity|split; auto]. Qed.

Lemma dec_le_trans d1 d2 d3 : dec_le d1 d2 -> dec_le d2 d3 -> dec_le d1 d3.
Proof.
  intros [H1 [H2 H3]] [G1 [G2 G3]]. split; [etrans; eassumption|split; auto].
Qed.

Lemma dispatchEntry_dec dir dec bs d' bs' :
  dispatchEntry dir dec bs = Ok d' bs' ->
  dec_le dec d'
  /\ length (images d') = (length (images dec) + if is_image_tag (de_type dir) then 1 else 0)%nat.
Proof.
  unfold dispatchEntry, is_image_tag. intros H.
  destruct ((de_type dir =? X3F_IMAG) || (de_type dir =? X3F_IMA2)).
  - inv_bind H. cbv [mret M_ret] in H. injection H as <- _. cbn.
    split; [split; [eexists; reflexivity|split; auto]|]. rewrite length_app. cbn. lia.
  - destruct (de_type dir =? X3F_PROP).
    + inv_bind H. cbv [mret M_ret] in H. injection H as <- _. cbn.
      split; [split; [reflexivity|split; [exact (addProperties_dom _ _ _ _ _ E)|auto]]|lia].
    + destruct (de_type dir =? X3F_CAMF).
      * inv_bind H. cbv [mret M_ret] in H. injection H as <- _. cbn.
        split; [split; [reflexivity|split; [auto|intros _; now eexists]]|lia].
      * cbv [mret M_ret] in H. injection H as <- _. split; [apply dec_le_refl|lia].
Qed.

Lemma X3fDirectoryEntry_read_type buf p dir bs' :
  X3fDirectoryEntry_read (mkBS buf p) = Ok dir bs' -> de_type dir = u32_at buf (p + 8).
Proof.
  unfold X3fDirectoryEntry_read. intros H.
  inv_bind H. inv_bind H. inv_bind H.
  apply getU32_val in E as [-> ->]. apply getU32_val in E0 as [-> ->].
  apply getU32_val in E1 as [-> ->].
  inv_bind H. inv_bind H. inv_bind H. inv_bind H. cbv [mret M_ret] in H.
  injection H as <- _. cbn. f_equal. lia.
Qed.

Lemma parseEntry_dec dec buf p d' bs' :
  parseEntry dec (mkBS buf p) = Ok d' bs' ->
  dec_le dec d'
  /\ length (images d') = (length (images dec) + if is_image_tag (u32_at buf (p + 8)) then 1 else 0)%nat
  /\ bs' = mkBS buf (p + 12).
Proof.
  intros H. pose proof (parseEntry_Ok _ _ _ _ H) as Hb. cbn in Hb.
  unfold parseEntry in H. inv_bind H.
  rewrite <- (X3fDirectoryEntry_read_type _ _ _ _ E).
  inv_bind H. inv_bind H. inv_bind H.
  destruct (dispatchEntry_dec _ _ _ _ _ E2) as [H1 H2]. split; [|split; [|exact Hb]].
  - inv_bind H. cbv [mret M_ret] in H. injection H as <- _. exact H1.
  - inv_bind H. cbv [mret M_ret] in H. injection H as <- _. exact H2.
Qed.

Lemma parseEntries_images n dec buf p d' bs' :
  parseEntries n dec (mkBS buf p) = Ok d' bs' ->
  dec_le dec d'
  /\ length (images d')
     = (length (images dec) + length (List.filter is_image_tag (dir_types buf p n)))%nat.
Proof.
  revert dec p. induction n as [|n IH]; intros dec p H.
  - cbv [parseEntries mret M_ret] in H. injection H as <- _. split; [apply dec_le_refl|].
    cbn. lia.
  - cbn [parseEntries] in H. inv_bind H.
    destruct (parseEntry_dec _ _ _ _ _ E) as [H1 [H2 ->]].
    destruct (IH _ _ H) as [G1 G2]. split; [exact (dec_le_trans _ _ _ H1 G1)|].
    rewrite G2, H2. cbn [dir_types List.filter].
    destruct (is_image_tag (u32_at buf (p + 8))); cbn [length]; lia.
Qed.

(** ** Properties of the decoder *)

(** The byte sequence [ConvertUTF16toUTF8] writes for a code point below
    0x110000 (lead byte [ch >> 6k | firstByteMark], then continuation bytes
    [(ch | byteMark) & byteMask] of six bits each) is the standard UTF-8
    encoding of that code point. *)
Theorem encode_utf8_standard ch :
  0 <= ch < 0x110000 -> encode_utf8 ch (bytesToWrite ch) = utf8_bytes ch.
Proof. exact (encode_utf8_std ch). Qed.

Lemma encode_utf8_standard_witness :
  0 <= 0x1F600 < 0x110000
  /\ encode_utf8 0x1F600 (bytesToWrite 0x1F600) = utf8_bytes 0x1F600.
Proof. split; [lia|]. apply encode_utf8_standard. lia. Defined.

(** Round trip: the UTF-16 encoding of a list of Unicode scalar values,
    converted with an output buffer large enough, converts without error
    to the concatenation of their standard UTF-8 encodings. *)
Theorem convert_utf16_round_trip cps room :
  Forall (fun c => is_scalar c = true) cps ->
  Z.of_nat (length (flat_map utf8_bytes cps)) <= room ->
  ConvertUTF16toUTF8 (utf16_encode cps) room = (true, flat_map utf8_bytes cps).
Proof. exact (convert_utf16_encode cps room). Qed.

Lemma convert_utf16_round_trip_witness :
  (Forall (fun c => is_scalar c = true) [0x41; 0xE9; 0x1F600]
   /\ Z.of_nat (length (flat_map utf8_bytes [0x41; 0xE9; 0x1F600])) <= 16)
  /\ ConvertUTF16toUTF8 (utf16_encode [0x41; 0xE9; 0x1F600]) 16
     = (true, flat_map utf8_bytes [0x41; 0xE9; 0x1F600]).
Proof.
  assert (H1 : Forall (fun c => is_scalar c = true) [0x41; 0xE9; 0x1F600])
    by (repeat constructor).
  assert (H2 : Z.of_nat (length (flat_map utf8_bytes [0x41; 0xE9; 0x1F600])) <= 16)
    by (apply Z.leb_le; vm_compute; reflexivity).
  split; [split; assumption|]. exact (convert_utf16_round_trip _ _ H1 H2).
Defined.

(** An unpaired surrogate is not an error of [ConvertUTF16toUTF8]: a low
    surrogate, or a high surrogate followed by a unit that is not a low
    surrogate, is written out as the three-byte encoding of its own value
    and the conversion goes on with the next unit. *)
Theorem unpaired_surrogate_passthrough u x rest room :
  3 <= room ->
  (is_low u = true ->
   ConvertUTF16toUTF8 (u :: rest) room
   = let '(ok, out) := ConvertUTF16toUTF8 rest (room - 3) in (ok, utf8_bytes u ++ out))
  /\ (is_high u = true -> is_low x = false ->
      ConvertUTF16toUTF8 (u :: x :: rest) room
      = let '(ok, out) := ConvertUTF16toUTF8 (x :: rest) (room - 3) in
        (ok, utf8_bytes u ++ out)).
Proof.
  intros Hr. split.
  - intros Hl. cbn [ConvertUTF16toUTF8].
    unfold is_low, UNI_SUR_LOW_START, UNI_SUR_LOW_END in Hl.
    apply andb_prop in Hl as [H1 H2]. apply Z.leb_le in H1, H2.
    replace (is_high u) with false.
    2:{ unfold is_high, UNI_SUR_HIGH_START, UNI_SUR_HIGH_END.
        now rewrite (Zleb_false u 0xDBFF) by lia; rewrite andb_false_r. }
    rewrite emit_std; rewrite ?bytesToWrite_surrogate;
      unfold UNI_SUR_HIGH_START, UNI_SUR_LOW_END; try lia. reflexivity.
  - intros Hh Hx. cbn [ConvertUTF16toUTF8]. rewrite Hh, Hx.
    unfold is_high, UNI_SUR_HIGH_START, UNI_SUR_HIGH_END in Hh.
    apply andb_prop in Hh as [H1 H2]. apply Z.leb_le in H1, H2.
    rewrite emit_std; rewrite ?bytesToWrite_surrogate;
      unfold UNI_SUR_HIGH_START, UNI_SUR_LOW_END; try lia. reflexivity.
Qed.

Lemma unpaired_surrogate_passthrough_witness :
  3 <= 10
  /\ ConvertUTF16toUTF8 [0xDC00; 0x41] 10
     = (let '(ok, out) := ConvertUTF16toUTF8 [0x41] (10 - 3) in (ok, utf8_bytes 0xDC00 ++ out))
  /\ ConvertUTF16toUTF8 [0xD800; 0x41] 10
     = (let '(ok, out) := ConvertUTF16toUTF8 [0x41] (10 - 3) in (ok, utf8_bytes 0xD800 ++ out)).
Proof.
  split; [lia|]. split.
  - exact (proj1 (unpaired_surrogate_passthrough 0xDC00 0 [0x41] 10 ltac:(lia)) eq_refl).
  - exact (proj2 (unpaired_surrogate_passthrough 0xD800 0x41 [] 10 ltac:(lia)) eq_refl eq_refl).
Defined.



(** [getString] returns the empty string when the units from the position
    hold no terminating 0 (the conversion is never attempted) and when the
    first unit is the terminator. *)
Theorem getString_empty buf q :
  0 <= q <= Z.of_nat (length buf) -> Z.of_nat (length buf) < 2 ^ 32 ->
  Forall (fun u => u <> 0) (units_at buf q) \/ head (units_at buf q) = Some 0 ->
  string_at buf q = EmptyString.
Proof.
  intros Hq Hs Hu. rewrite string_at_all_units by lia. unfold decode_units.
  destruct Hu as [Hu|Hu].
  - pose proof (scan_nul_none _ 0 Hu) as Hn.
    destruct (scan_nul (units_at buf q) 0) as [i [k|]]; [discriminate|reflexivity].
  - destruct (units_at buf q) as [|u us]; [discriminate|]. cbn in Hu.
    injection Hu as ->. reflexivity.
Qed.

Lemma getString_empty_witness :
  let buf := units_bytes [0; 0x41; 0] in
  let buf' := units_bytes [0x41; 0x42] in
  head (units_at buf 0) = Some 0 /\ string_at buf 0 = EmptyString
  /\ Forall (fun u => u <> 0) (units_at buf' 0) /\ string_at buf' 0 = EmptyString.
Proof.
  intros buf buf'.
  assert (H1 : head (units_at buf 0) = Some 0) by (vm_compute; reflexivity).
  assert (H2 : Forall (fun u => u <> 0) (units_at buf' 0))
    by (vm_compute; repeat constructor; discriminate).
  split; [exact H1|]. split.
  - apply getString_empty;
      [split; [lia | apply Z.leb_le; vm_compute; reflexivity]
      | apply Z.ltb_lt; vm_compute; reflexivity | right; exact H1].
  - split; [exact H2|]. apply getString_empty;
      [split; [lia | apply Z.leb_le; vm_compute; reflexivity]
      | apply Z.ltb_lt; vm_compute; reflexivity | left; exact H2].
Defined.

(** [getString] consumes the whole remainder of the stream rounded down to
    whole UTF-16 units, wherever the terminating 0 lies. *)
Theorem getString_cursor buf q :
  0 <= q <= Z.of_nat (length buf) -> Z.of_nat (length buf) < 2 ^ 32 ->
  getString (mkBS buf q)
  = Ok (string_at buf q) (mkBS buf (q + 2 * ((Z.of_nat (length buf) - q) / 2))).
Proof.
  intros Hq Hs. destruct (getString_Ok buf q Hq) as [q' E]. rewrite E.
  revert E. unfold getString.
  step (eq_refl : getRemainSize (mkBS buf q)
                  = Ok (Z.of_nat (length buf) - q) (mkBS buf q)).
  assert (Hu : u32 (Z.of_nat (length buf) - q) = Z.of_nat (length buf) - q).
  { unfold u32. apply Z.mod_small. lia. }
  rewrite Hu. set (r := Z.of_nat (length buf) - q).
  pose proof (Z.div_pos r 2 ltac:(lia) ltac:(lia)).
  pose proof (Z.mul_div_le r 2 ltac:(lia)).
  step (getData_at buf q (r / 2 * 2) ltac:(lia) ltac:(lia) ltac:(lia)).
  intros HE. inversion HE. do 2 f_equal. lia.
Qed.

Lemma getString_cursor_witness :
  let buf := units_bytes [0x41; 0; 0x42] ++ [7] in
  getString (mkBS buf 2)
  = Ok (string_at buf 2) (mkBS buf (2 + 2 * ((Z.of_nat (length buf) - 2) / 2))).
Proof.
  intros buf. apply getString_cursor;
    [split; [lia | apply Z.leb_le; vm_compute; reflexivity]
    | apply Z.ltb_lt; vm_compute; reflexivity].
Defined.

(** [X3fImageData] and [X3fCamf] read their 7 and 5 little-endian
    [uint32_t] fields in declaration order and leave the stream right after
    them; a record that does not fit before the end fails with an
    out-of-bounds read. *)
Theorem image_camf_records buf p :
  0 <= p <= Z.of_nat (length buf) ->
  (p + 28 <= Z.of_nat (length buf) ->
   X3fImageData_read (mkBS buf p)
   = Ok (mkImage (u32_at buf p) (u32_at buf (p + 4)) (u32_at buf (p + 8))
                 (u32_at buf (p + 12)) (u32_at buf (p + 16)) (u32_at buf (p + 20))
                 (u32_at buf (p + 24)))
        (mkBS buf (p + 28)))
  /\ (Z.of_nat (length buf) < p + 28 -> X3fImageData_read (mkBS buf p) = Err OutOfBoundsRead)
  /\ (p + 20 <= Z.of_nat (length buf) ->
      X3fCamf_read (mkBS buf p)
      = Ok (mkCamf (u32_at buf p) (u32_at buf (p + 4)) (u32_at buf (p + 8))
                   (u32_at buf (p + 12)) (u32_at buf (p + 16)))
           (mkBS buf (p + 20)))
  /\ (Z.of_nat (length buf) < p + 20 -> X3fCamf_read (mkBS buf p) = Err OutOfBoundsRead).
Proof.
  intros Hp. split; [|split; [|split]].
  - intros Hs. unfold X3fImageData_read. do 7 step_u32.
    fin_record.
  - intros Hs. assert (H : reads X3fImageData_read 28).
    { unfold X3fImageData_read. eapply reads_eq; [reads_tac|]; lia. }
    exact (proj2 (H buf p Hp) Hs).
  - intros Hs. unfold X3fCamf_read. do 5 step_u32.
    fin_record.
  - intros Hs. assert (H : reads X3fCamf_read 20).
    { unfold X3fCamf_read. eapply reads_eq; [reads_tac|]; lia. }
    exact (proj2 (H buf p Hp) Hs).
Qed.

Lemma image_camf_records_witness :
  0 <= 0 <= Z.of_nat (length image_section)
  /\ X3fImageData_read (mkBS image_section 0)
     = Ok (mkImage (u32_at image_section 0) (u32_at image_section 4) (u32_at image_section 8)
                   (u32_at image_section 12) (u32_at image_section 16)
                   (u32_at image_section 20) (u32_at image_section 24))
          (mkBS image_section 28)
  /\ X3fCamf_read (mkBS image_section 12) = Err OutOfBoundsRead.
Proof.
  assert (Hp : 0 <= 0 <= Z.of_nat (length image_section))
    by (split; [lia | apply Z.leb_le; vm_compute; reflexivity]).
  assert (Hp' : 0 <= 12 <= Z.of_nat (length image_section))
    by (split; [lia | apply Z.leb_le; vm_compute; reflexivity]).
  split; [exact Hp|]. split.
  - apply (proj1 (image_camf_records image_section 0 Hp)).
    apply Z.leb_le; vm_compute; reflexivity.
  - apply (proj2 (proj2 (proj2 (image_camf_records image_section 12 Hp')))).
    apply Z.ltb_lt; vm_compute; reflexivity.
Defined.

(** [X3fPropertyList] and [X3fPropertyEntry] read their 6 and 2
    little-endian [uint32_t] fields in declaration order and leave the
    stream right after them; a record that does not fit before the end
    fails with an out-of-bounds read. *)
Theorem property_record_layout buf p :
  0 <= p <= Z.of_nat (length buf) ->
  (p + 24 <= Z.of_nat (length buf) ->
   X3fPropertyList_read (mkBS buf p)
   = Ok (mkPropList (u32_at buf p) (u32_at buf (p + 4)) (u32_at buf (p + 8))
                    (u32_at buf (p + 12)) (u32_at buf (p + 16)) (u32_at buf (p + 20)))
        (mkBS buf (p + 24)))
  /\ (Z.of_nat (length buf) < p + 24 -> X3fPropertyList_read (mkBS buf p) = Err OutOfBoundsRead)
  /\ (p + 8 <= Z.of_nat (length buf) ->
      X3fPropertyEntry_read (mkBS buf p)
      = Ok (mkPropEntry (u32_at buf p) (u32_at buf (p + 4))) (mkBS buf (p + 8)))
  /\ (Z.of_nat (length buf) < p + 8 -> X3fPropertyEntry_read (mkBS buf p) = Err OutOfBoundsRead).
Proof. exact (property_records buf p). Qed.

Lemma property_record_layout_witness :
  let buf := prop_section 0 1 [(4, 5)] chars_make_example in
  0 <= 24 <= Z.of_nat (length buf)
  /\ X3fPropertyEntry_read (mkBS buf 24)
     = Ok (mkPropEntry (u32_at buf 24) (u32_at buf 28)) (mkBS buf (24 + 8)).
Proof.
  intros buf.
  assert (Hp : 0 <= 24 <= Z.of_nat (length buf))
    by (split; [lia | apply Z.leb_le; vm_compute; reflexivity]).
  split; [exact Hp|].
  apply (proj1 (proj2 (proj2 (property_record_layout buf 24 Hp)))).
  apply Z.leb_le; vm_compute; reflexivity.
Defined.

(** After a valid signature, the header reader consumes a number of bytes
    fixed by the version: 24 from version 4.0 on, 40 below 2.1, and for the
    versions in between 40 plus the white balance string(s) and the
    extended data types and values of 2.1 or 3.0; a file shorter than that
    fails with an out-of-bounds read. *)
Theorem header_length_by_version buf :
  8 <= Z.of_nat (length buf) -> u32_at buf 0 = X3F_FOVb ->
  (header_size (u32_at buf 4) <= Z.of_nat (length buf) ->
   exists h, X3fHeader_read (mkBS buf 0) = Ok h (mkBS buf (header_size (u32_at buf 4))))
  /\ (Z.of_nat (length buf) < header_size (u32_at buf 4) ->
      X3fHeader_read (mkBS buf 0) = Err OutOfBoundsRead).
Proof. exact (header_read_size buf). Qed.

Lemma header_length_by_version_witness :
  let buf := header_bytes X3F_VERSION_2_3 300 in
  (8 <= Z.of_nat (length buf) /\ u32_at buf 0 = X3F_FOVb /\ header_size (u32_at buf 4) = 265)
  /\ exists h, X3fHeader_read (mkBS buf 0) = Ok h (mkBS buf (header_size (u32_at buf 4))).
Proof.
  intros buf.
  assert (H1 : 8 <= Z.of_nat (length buf)) by (apply Z.leb_le; vm_compute; reflexivity).
  assert (H2 : u32_at buf 0 = X3F_FOVb) by (vm_compute; reflexivity).
  split; [split; [exact H1 | split; [exact H2 | vm_compute; reflexivity]]|].
  apply (proj1 (header_length_by_version buf H1 H2)).
  apply Z.leb_le; vm_compute; reflexivity.
Defined.

(** The constructor of [X3fParser], on a buffer of at least 232 bytes,
    rejects a wrong signature with [BadSignature], turns a header that runs
    past the end into [HeaderIOError], and otherwise leaves the stream just
    after the header. *)
Theorem parser_ctor_accepts buf :
  232 <= Z.of_nat (length buf) ->
  (u32_at buf 0 <> X3F_FOVb -> X3fParser_ctor buf = Err BadSignature)
  /\ (u32_at buf 0 = X3F_FOVb -> header_size (u32_at buf 4) <= Z.of_nat (length buf) ->
      X3fParser_ctor buf = Ok tt (mkBS buf (header_size (u32_at buf 4))))
  /\ (u32_at buf 0 = X3F_FOVb -> Z.of_nat (length buf) < header_size (u32_at buf 4) ->
      X3fParser_ctor buf = Err HeaderIOError).
Proof.
  intros Hs. unfold X3fParser_ctor.
  rewrite (Zltb_false (Z.of_nat (length buf)) (104 + 128)) by lia.
  split; [|split].
  - intros Hid. unfold X3fHeader_read.
    step (getU32_at buf 0 ltac:(lia) ltac:(lia)).
    step (getU32_at buf (0 + 4) ltac:(lia) ltac:(lia)).
    rewrite (proj2 (Z.eqb_neq _ _) Hid). reflexivity.
  - intros Hid Hh. destruct (proj1 (header_read_size buf ltac:(lia) Hid) Hh) as [h Eh].
    now rewrite Eh.
  - intros Hid Hh. now rewrite (proj2 (header_read_size buf ltac:(lia) Hid) Hh).
Qed.

Lemma parser_ctor_accepts_witness :
  let good := header_bytes X3F_VERSION_2_0 256 in
  let bad := le32 0 ++ zeros 252 in
  let short := header_bytes X3F_VERSION_3_0 240 in
  (232 <= Z.of_nat (length good) /\ 232 <= Z.of_nat (length bad)
   /\ 232 <= Z.of_nat (length short))
  /\ X3fParser_ctor good = Ok tt (mkBS good (header_size (u32_at good 4)))
  /\ X3fParser_ctor bad = Err BadSignature
  /\ X3fParser_ctor short = Err HeaderIOError.
Proof.
  intros good bad short.
  assert (Hg : 232 <= Z.of_nat (length good)) by (apply Z.leb_le; vm_compute; reflexivity).
  assert (Hb : 232 <= Z.of_nat (length bad)) by (apply Z.leb_le; vm_compute; reflexivity).
  assert (Hs : 232 <= Z.of_nat (length short)) by (apply Z.leb_le; vm_compute; reflexivity).
  split; [split; [exact Hg | split; [exact Hb | exact Hs]]|]. split; [|split].
  - apply (proj1 (proj2 (parser_ctor_accepts good Hg))); [vm_compute; reflexivity|].
    apply Z.leb_le; vm_compute; reflexivity.
  - apply (proj1 (parser_ctor_accepts bad Hb)). vm_compute. discriminate.
  - apply (proj2 (proj2 (parser_ctor_accepts short Hs))); [vm_compute; reflexivity|].
    apply Z.ltb_lt; vm_compute; reflexivity.
Defined.

(** [X3fDecoder::isAppropriateDecoder] fails with an out-of-bounds read on
    an input shorter than the 4 signature bytes, and otherwise accepts
    exactly the inputs whose first little-endian [uint32_t] is the
    signature "FOVb". *)
Theorem isX3f_signature input :
  (Z.of_nat (length input) < 4 -> isAppropriateDecoder input = inl OutOfBoundsRead)
  /\ (4 <= Z.of_nat (length input) -> Forall (fun b => 0 <= b < 256) (take 4 input) ->
      isAppropriateDecoder input = inr true <-> u32_at input 0 = X3F_FOVb).
Proof.
  unfold isAppropriateDecoder, isX3f, Buffer_getData. cbn [length magic].
  change (Z.of_nat 4) with 4. split.
  - intros Hs. rewrite (Zleb_false (0 + 4) (Z.of_nat (length input))) by lia.
    now rewrite andb_false_r.
  - intros Hs Hb. rewrite (proj2 (Z.leb_le (0 + 4) _)) by lia. cbn [andb Z.leb].
    change (Z.to_nat 0) with 0%nat. rewrite drop_0. unfold u32_at. rewrite drop_0.
    destruct input as [|b0 [|b1 [|b2 [|b3 rest]]]]; cbn in Hs; try lia.
    cbn [take] in Hb |- *. inversion Hb as [|? ? G0 Hb1]; inversion Hb1 as [|? ? G1 Hb2];
      inversion Hb2 as [|? ? G2 Hb3]; inversion Hb3 as [|? ? G3 _]; subst.
    cbn [le_value]. unfold X3F_FOVb. split.
    + intros H. injection H as H. apply bool_decide_eq_true in H. injection H as -> -> -> ->.
      reflexivity.
    + intros H. f_equal. apply bool_decide_eq_true.
      assert (b0 = 70 /\ b1 = 79 /\ b2 = 86 /\ b3 = 98) as [-> [-> [-> ->]]] by lia.
      reflexivity.
Qed.

Lemma isX3f_signature_witness :
  let input := header_bytes X3F_VERSION_2_0 256 in
  (4 <= Z.of_nat (length input) /\ Forall (fun b => 0 <= b < 256) (take 4 input))
  /\ (isAppropriateDecoder input = inr true <-> u32_at input 0 = X3F_FOVb)
  /\ isAppropriateDecoder [70; 79; 86] = inl OutOfBoundsRead.
Proof.
  intros input.
  assert (H1 : 4 <= Z.of_nat (length input)) by (apply Z.leb_le; vm_compute; reflexivity).
  assert (H2 : Forall (fun b => 0 <= b < 256) (take 4 input))
    by (vm_compute; repeat constructor; discriminate).
  split; [split; assumption|]. split.
  - exact (proj2 (isX3f_signature input) H1 H2).
  - apply (proj1 (isX3f_signature [70; 79; 86])). apply Z.ltb_lt; vm_compute; reflexivity.
Defined.

(** [getIdAsString] reads 4 bytes and keeps those before the first 0 as a
    string of at most 4 characters, leaving the stream after the 4 bytes;
    fewer than 4 bytes left fail with an out-of-bounds read. *)
Theorem getIdAsString_at buf p :
  0 <= p <= Z.of_nat (length buf) ->
  (p + 4 <= Z.of_nat (length buf) ->
   getIdAsString (mkBS buf p)
   = Ok (bytes_to_string (cstring (take 4 (drop (Z.to_nat p) buf)))) (mkBS buf (p + 4))
   /\ (String.length (bytes_to_string (cstring (take 4 (drop (Z.to_nat p) buf)))) <= 4)%nat)
  /\ (Z.of_nat (length buf) < p + 4 -> getIdAsString (mkBS buf p) = Err OutOfBoundsRead).
Proof.
  intros Hp. split.
  - intros Hs. split.
    + unfold getIdAsString. step (repeat_getByte_at 4 buf p ltac:(lia) ltac:(lia)).
      rewrite ret_Ok, cstring_app_0. reflexivity.
    + rewrite bytes_to_string_length.
      pose proof (cstring_length (take 4 (drop (Z.to_nat p) buf))).
      rewrite length_take in H. lia.
  - intros Hs. unfold getIdAsString.
    apply bind_Err. apply (reads_repeatM 4 getByte 1 reads_getByte ltac:(lia) buf p Hp).
    lia.
Qed.

Lemma getIdAsString_at_witness :
  let buf := le32 X3F_SECd ++ [80; 0; 81; 82] in
  0 <= 4 <= Z.of_nat (length buf)
  /\ getIdAsString (mkBS buf 4)
     = Ok (bytes_to_string (cstring (take 4 (drop (Z.to_nat 4) buf)))) (mkBS buf (4 + 4))
  /\ getIdAsString (mkBS buf 6) = Err OutOfBoundsRead.
Proof.
  intros buf.
  assert (Hp : 0 <= 4 <= Z.of_nat (length buf))
    by (split; [lia | apply Z.leb_le; vm_compute; reflexivity]).
  assert (Hp' : 0 <= 6 <= Z.of_nat (length buf))
    by (split; [lia | apply Z.leb_le; vm_compute; reflexivity]).
  split; [exact Hp|]. split.
  - apply (proj1 (proj1 (getIdAsString_at buf 4 Hp) ltac:(apply Z.leb_le; vm_compute; reflexivity))).
  - apply (proj2 (getIdAsString_at buf 6 Hp')). apply Z.ltb_lt; vm_compute; reflexivity.
Defined.

(** The loop over the property entries consumes exactly 8 bytes per entry:
    from any position it either ends [8 * n] bytes further on, or fails
    with an out-of-bounds read when those bytes run past the end of the
    buffer (an entry whose strings are out of bounds is skipped, not an
    error). *)
Theorem property_loop_consumes_8_per_entry n ds props :
  reads (addProperty_loop n ds props) (8 * Z.of_nat n).
Proof. exact (addProperty_loop_reads n ds props). Qed.

(** The checks of [addProperties] on the property list header, in order:
    a wrong identifier gives [UnknownPropertySignature], a version below 2.0
    [PropertyVersionTooOld], and, for the format 0, more than 1000 entries
    [UnreasonablePropertyCount]. *)
Theorem addProperties_errors buf off q props pl bs1 :
  0 <= off <= Z.of_nat (length buf) ->
  X3fPropertyList_read (mkBS buf off) = Ok pl bs1 ->
  (pl_id pl <> X3F_SECp -> addProperties off props (mkBS buf q) = Err UnknownPropertySignature)
  /\ (pl_id pl = X3F_SECp -> pl_version pl < X3F_VERSION_2_0 ->
      addProperties off props (mkBS buf q) = Err PropertyVersionTooOld)
  /\ (pl_id pl = X3F_SECp -> X3F_VERSION_2_0 <= pl_version pl -> format pl = 0 ->
      1000 < num pl -> addProperties off props (mkBS buf q) = Err UnreasonablePropertyCount).
Proof.
  intros Hoff Hpl. unfold addProperties.
  step (setPosition_at buf q off Hoff). step Hpl. split; [|split].
  - intros Hid. now rewrite (proj2 (Z.eqb_neq _ _) Hid).
  - intros Hid Hv. rewrite Hid, Zeqb_refl'. cbn [negb]. now rewrite (Zltb_true _ _ Hv).
  - intros Hid Hv Hf Hn. rewrite Hid, Zeqb_refl'. cbn [negb].
    rewrite (Zltb_false _ _ Hv), (Zltb_false (num pl) 1) by lia. rewrite Hf.
    cbn [Z.eqb negb]. now rewrite (Zltb_true _ _ Hn).
Qed.

Lemma addProperties_errors_witness :
  let bad_id := le32 0 ++ le32 X3F_VERSION_2_0 ++ le32 1 ++ zeros 12 in
  let old := le32 X3F_SECp ++ le32 0x00010000 ++ le32 1 ++ zeros 12 in
  let many := prop_section 0 2000 [] [] in
  let pl_bad := mkPropList 0 X3F_VERSION_2_0 1 0 0 0 in
  let pl_old := mkPropList X3F_SECp 0x00010000 1 0 0 0 in
  let pl_many := mkPropList X3F_SECp X3F_VERSION_2_0 2000 0 0 0 in
  (X3fPropertyList_read (mkBS bad_id 0) = Ok pl_bad (mkBS bad_id 24)
   /\ addProperties 0 ∅ (mkBS bad_id 0) = Err UnknownPropertySignature)
  /\ (X3fPropertyList_read (mkBS old 0) = Ok pl_old (mkBS old 24)
      /\ addProperties 0 ∅ (mkBS old 0) = Err PropertyVersionTooOld)
  /\ (X3fPropertyList_read (mkBS many 0) = Ok pl_many (mkBS many 24)
      /\ addProperties 0 ∅ (mkBS many 0) = Err UnreasonablePropertyCount).
Proof.
  intros bad_id old many pl_bad pl_old pl_many.
  assert (E1 : X3fPropertyList_read (mkBS bad_id 0) = Ok pl_bad (mkBS bad_id 24))
    by (vm_compute; reflexivity).
  assert (E2 : X3fPropertyList_read (mkBS old 0) = Ok pl_old (mkBS old 24))
    by (vm_compute; reflexivity).
  assert (E3 : X3fPropertyList_read (mkBS many 0) = Ok pl_many (mkBS many 24))
    by (vm_compute; reflexivity).
  split; [|split].
  - split; [exact E1|].
    apply (proj1 (addProperties_errors bad_id 0 0 ∅ pl_bad _ ltac:(split; [lia | zle]) E1)).
    vm_compute. discriminate.
  - split; [exact E2|].
    apply (proj1 (proj2 (addProperties_errors old 0 0 ∅ pl_old _
                           ltac:(split; [lia | zle]) E2))); [reflexivity | zlt].
  - split; [exact E3|].
    apply (proj2 (proj2 (addProperties_errors many 0 0 ∅ pl_many _
                           ltac:(split; [lia | zle]) E3))); [reflexivity | zle | reflexivity | zlt].
Defined.

(** Once the property list header passes its checks with between 1 and
    1000 entries of format 0, [addProperties] succeeds exactly when the
    entry table fits in the buffer, and then leaves the stream right after
    the table; otherwise it fails with an out-of-bounds read. *)
Theorem addProperties_table buf off q props :
  0 <= off -> off + 24 <= Z.of_nat (length buf) ->
  u32_at buf off = X3F_SECp -> X3F_VERSION_2_0 <= u32_at buf (off + 4) ->
  1 <= u32_at buf (off + 8) <= 1000 -> u32_at buf (off + 12) = 0 ->
  (off + 24 + 8 * u32_at buf (off + 8) <= Z.of_nat (length buf) ->
   exists props', addProperties off props (mkBS buf q)
                  = Ok props' (mkBS buf (off + 24 + 8 * u32_at buf (off + 8))))
  /\ (Z.of_nat (length buf) < off + 24 + 8 * u32_at buf (off + 8) ->
      addProperties off props (mkBS buf q) = Err OutOfBoundsRead).
Proof.
  intros Hoff Hs Hid Hv Hn Hf.
  destruct (property_records buf off ltac:(lia)) as [Hpl _].
  unfold addProperties.
  step (setPosition_at buf q off ltac:(lia)). step (Hpl Hs). cbn [pl_id pl_version num format].
  rewrite Hid, Zeqb_refl'. cbn [negb]. rewrite (Zltb_false _ _ Hv).
  rewrite (Zltb_false (u32_at buf (off + 8)) 1) by lia. rewrite Hf. cbn [Z.eqb negb].
  rewrite (Zltb_false 1000 (u32_at buf (off + 8))) by lia.
  step (eq_refl : getPosition (mkBS buf (off + 24)) = Ok (off + 24) (mkBS buf (off + 24))).
  destruct (addProperty_loop_reads (Z.to_nat (u32_at buf (off + 8)))
              (u32 (off + 24 + u32_at buf (off + 8) * 8)) props buf (off + 24) ltac:(lia))
    as [Hok Herr].
  rewrite Z2Nat.id in Hok, Herr by lia. split.
  - intros Ht. destruct (Hok ltac:(lia)) as [props' E]. exists props'. now rewrite E.
  - intros Ht. apply Herr. lia.
Qed.

Lemma addProperties_table_witness :
  let buf := prop_section 0 1 [(4, 5)] chars_make_example in
  (0 <= 0 /\ 0 + 24 <= Z.of_nat (length buf) /\ u32_at buf 0 = X3F_SECp
   /\ X3F_VERSION_2_0 <= u32_at buf (0 + 4) /\ 1 <= u32_at buf (0 + 8) <= 1000
   /\ u32_at buf (0 + 12) = 0)
  /\ exists props', addProperties 0 ∅ (mkBS buf 0)
                    = Ok props' (mkBS buf (0 + 24 + 8 * u32_at buf (0 + 8))).
Proof.
  intros buf.
  assert (H1 : 0 + 24 <= Z.of_nat (length buf)) by (apply Z.leb_le; vm_compute; reflexivity).
  assert (H2 : u32_at buf 0 = X3F_SECp) by (vm_compute; reflexivity).
  assert (H3 : X3F_VERSION_2_0 <= u32_at buf (0 + 4))
    by (apply Z.leb_le; vm_compute; reflexivity).
  assert (H4 : 1 <= u32_at buf (0 + 8) <= 1000)
    by (split; apply Z.leb_le; vm_compute; reflexivity).
  assert (H5 : u32_at buf (0 + 12) = 0) by (vm_compute; reflexivity).
  split; [repeat split; first [lia | assumption | apply H4]|].
  apply (proj1 (addProperties_table buf 0 0 ∅ ltac:(lia) H1 H2 H3 H4 H5)).
  apply Z.leb_le; vm_compute; reflexivity.
Defined.

(** [addProperties] never removes a property: every key present before a
    successful run is still present after it. *)
Theorem addProperties_keeps_keys off props bs props' bs' :
  addProperties off props bs = Ok props' bs' ->
  forall k, is_Some (props !! k) -> is_Some (props' !! k).
Proof. exact (addProperties_dom off props bs props' bs'). Qed.

Lemma addProperties_keeps_keys_witness :
  let buf := prop_section 0 1 [(0, 5)] chars_make_example in
  let props := <["Make" := "x"]> (∅ : Props) in
  exists props' bs', addProperties 0 props (mkBS buf 0) = Ok props' bs'
                     /\ is_Some (props' !! "Make").
Proof.
  intros buf props.
  destruct (addProperties 0 props (mkBS buf 0)) as [props' bs'|e] eqn:E;
    [|vm_compute in E; discriminate].
  exists props', bs'. split; [reflexivity|].
  apply (addProperties_keeps_keys _ _ _ _ _ E). eexists; reflexivity.
Defined.

(** The directory walk only adds to the decoder: the images found before
    stay a prefix of the images, no property and no CAMF section is lost,
    and exactly one image is appended per entry of type "IMAG" or "IMA2". *)
Theorem parseEntries_grow n dec buf p d' bs' :
  parseEntries n dec (mkBS buf p) = Ok d' bs' ->
  dec_le dec d'
  /\ length (images d')
     = (length (images dec) + length (List.filter is_image_tag (dir_types buf p n)))%nat.
Proof. exact (parseEntries_images n dec buf p d' bs'). Qed.

Lemma parseEntries_grow_witness :
  let buf := build_file (header_bytes X3F_VERSION_2_0 256) [(X3F_IMAG, image_section)] in
  exists d' bs', parseEntries 1 emptyDecoder (mkBS buf 296) = Ok d' bs'
                 /\ dec_le emptyDecoder d'
                 /\ length (images d')
                    = (length (images emptyDecoder)
                       + length (List.filter is_image_tag (dir_types buf 296 1)))%nat.
Proof.
  intros buf.
  destruct (parseEntries 1 emptyDecoder (mkBS buf 296)) as [d' bs'|e] eqn:E;
    [|vm_compute in E; discriminate].
  exists d', bs'. split; [reflexivity|]. exact (parseEntries_grow _ _ _ _ _ _ E).
Defined.

(** On a successful parse, the decoder holds one image per directory entry
    of type "IMAG" or "IMA2", the directory being the one the last 4 bytes
    of the file point to. *)
Theorem parse_image_count input dec bs :
  parse input = Ok dec bs ->
  let d := u32_at input (u32 (Z.of_nat (length input) - 4)) in
  length (images dec)
  = length (List.filter is_image_tag (dir_types input (d + 12) (Z.to_nat (u32_at input (d + 8))))).
Proof.
  unfold parse. destruct (X3fParser_ctor input) as [u b|] eqn:C; [|discriminate].
  rewrite (parser_ctor_buf _ _ _ C). intros H. unfold parseData in H.
  inv_bind H. cbv [getSize] in E. injection E as <- <-. unfold bs_size in H. cbn in H.
  inv_bind H. apply setPosition_Ok in E as [-> _]. cbn in H.
  inv_bind H. apply getU32_val in E as [-> ->].
  inv_bind H. apply setPosition_Ok in E as [-> _]. cbn in H.
  inv_bind H. apply X3fDirectorySection_read_val in E as [Hn ->].
  rewrite Hn in H. destruct (parseEntries_images _ _ _ _ _ _ H) as [_ ->]. reflexivity.
Qed.

Lemma parse_image_count_witness :
  let input := build_file (header_bytes X3F_VERSION_2_0 256) [(X3F_IMAG, image_section)] in
  exists dec bs, parse input = Ok dec bs
    /\ length (images dec)
       = length (List.filter is_image_tag
                   (dir_types input (u32_at input (u32 (Z.of_nat (length input) - 4)) + 12)
                      (Z.to_nat (u32_at input (u32_at input (u32 (Z.of_nat (length input) - 4)) + 8))))).
Proof.
  intros input.
  destruct (parse input) as [dec bs|e] eqn:E; [|vm_compute in E; discriminate].
  exists dec, bs. split; [reflexivity|]. exact (parse_image_count _ _ _ E).
Defined.

(** [parseData] fails with an out-of-bounds read when the directory
    pointer in the last 4 bytes leaves fewer than 8 bytes of the buffer
    from where it points, whatever the decoder and the position. *)
Theorem parseData_bad_pointer buf p dec :
  4 <= Z.of_nat (length buf) < 2 ^ 32 ->
  Z.of_nat (length buf) < u32_at buf (Z.of_nat (length buf) - 4) + 8 ->
  parseData dec (mkBS buf p) = Err OutOfBoundsRead.
Proof.
  intros Hs Hd. unfold parseData.
  step (eq_refl : getSize (mkBS buf p) = Ok (Z.of_nat (length buf)) (mkBS buf p)).
  assert (Hu : u32 (Z.of_nat (length buf) - 4) = Z.of_nat (length buf) - 4).
  { unfold u32. apply Z.mod_small. lia. }
  rewrite Hu. step (setPosition_at buf p (Z.of_nat (length buf) - 4) ltac:(lia)).
  step (getU32_at buf (Z.of_nat (length buf) - 4) ltac:(lia) ltac:(lia)).
  set (d := u32_at buf (Z.of_nat (length buf) - 4)) in *.
  destruct (Z_le_dec 0 d) as [H0|H0]; [destruct (Z_le_dec d (Z.of_nat (length buf))) as [H1|H1]|].
  - step (setPosition_at buf (Z.of_nat (length buf) - 4 + 4) d ltac:(lia)).
    apply bind_Err. unfold X3fDirectorySection_read.
    destruct (Z_le_dec (d + 4) (Z.of_nat (length buf))) as [H2|H2].
    + step (getU32_at buf d H0 H2). apply bind_Err. apply getU32_out. lia.
    + apply bind_Err. apply getU32_out. lia.
  - apply bind_Err. unfold setPosition, bs_size. cbn [bs_buf].
    now rewrite (Zleb_false d (Z.of_nat (length buf))), andb_false_r by lia.
  - apply bind_Err. unfold setPosition, bs_size. cbn [bs_buf].
    now rewrite (Zleb_false 0 d) by lia.
Qed.

Lemma parseData_bad_pointer_witness :
  let buf := header_bytes X3F_VERSION_2_0 252 ++ le32 300 in
  (4 <= Z.of_nat (length buf) < 2 ^ 32
   /\ Z.of_nat (length buf) < u32_at buf (Z.of_nat (length buf) - 4) + 8)
  /\ parseData emptyDecoder (mkBS buf 0) = Err OutOfBoundsRead.
Proof.
  intros buf.
  assert (H1 : 4 <= Z.of_nat (length buf) < 2 ^ 32)
    by (split; [apply Z.leb_le | apply Z.ltb_lt]; vm_compute; reflexivity).
  assert (H2 : Z.of_nat (length buf) < u32_at buf (Z.of_nat (length buf) - 4) + 8)
    by (apply Z.ltb_lt; vm_compute; reflexivity).
  split; [split; assumption|]. exact (parseData_bad_pointer buf 0 emptyDecoder H1 H2).
Defined.
